(** * AutomateFlow Tracker: query builder, credential parsing and the
    pagination controller

    A shallow embedding of [services/dataverseService.ts] (the fetch client)
    and of the pagination/filter state held by [App.tsx], with the properties
    of the written specification stated over it.

    Conventions of the embedding.
    - A JavaScript string is a [string]; each [ascii] stands for the UTF-16
      code unit of the same number, so the embedding covers the strings whose
      code units are below 256. Where a program can compute another string
      from such strings (an escape in a JSON text), the result is a
      [Js.text], which also holds the strings with larger code units.
    - A JavaScript [number] that holds a category, a status, a count or a
      page number is an integer, a [Z].
    - [null] and [undefined] are [None].
    - A promise that is awaited is split in two: the synchronous prefix of
      the handler, which registers the outstanding call, and the
      continuation, which runs when the call is settled. *)

From Stdlib Require Import ZArith List String Ascii Bool Lia.
From Stdlib Require Import DecimalString.
Import ListNotations.
Open Scope string_scope.
Open Scope Z_scope.

(* ================================================================== *)
(** ** JavaScript string primitives *)
(* ================================================================== *)

Module Js.

(** Truthiness of a string: every string but the empty one. *)
Definition truthy (s : string) : bool :=
  match s with
  | EmptyString => false
  | String _ _ => true
  end.

(** Truthiness of a [string | null | undefined] value. *)
Definition truthy_opt (o : option string) : bool :=
  match o with
  | Some s => truthy s
  | None => false
  end.

(** [String(n)] and [`${n}`] for an integer [n]: its decimal digits, with
    a minus sign when it is negative (the form JavaScript prints for the
    integers below 10^21 in magnitude). *)
Definition string_of_number (n : Z) : string :=
  NilZero.string_of_int (Z.to_int n).

Definition quote : ascii := "'"%char.

(** [s.replace(/'/g, "''")]. *)
Fixpoint replace_quotes (s : string) : string :=
  match s with
  | EmptyString => EmptyString
  | String c rest =>
      if Ascii.eqb c quote
      then String quote (String quote (replace_quotes rest))
      else String c (replace_quotes rest)
  end.

(** [parts.join(sep)]. *)
Definition join (sep : string) (parts : list string) : string :=
  String.concat sep parts.

(** White space and line terminators of ECMAScript among the code units
    below 256: TAB, LF, VT, FF, CR, SP and NBSP. *)
Definition is_space (c : ascii) : bool :=
  let n := nat_of_ascii c in
  (Nat.leb 9 n && Nat.leb n 13) || Nat.eqb n 32 || Nat.eqb n 160.

Fixpoint trim_start (s : string) : string :=
  match s with
  | EmptyString => EmptyString
  | String c rest => if is_space c then trim_start rest else s
  end.

(** Drops the trailing white space: a character stays when it is not a
    space or when something stays after it. *)
Fixpoint trim_end (s : string) : string :=
  match s with
  | EmptyString => EmptyString
  | String c rest =>
      match trim_end rest with
      | EmptyString => if is_space c then EmptyString else String c EmptyString
      | kept => String c kept
      end
  end.

(** [s.trim()]. *)
Definition trim (s : string) : string := trim_end (trim_start s).

(** A string that a program computes from strings of the embedding need
    not be one of them: [JSON.parse] reads the escape of any code unit. A
    [text] is a string of the embedding, or the list of the code units of
    a string that holds a code unit of 256 or above. *)
Inductive text :=
| Narrow (s : string)
| Wide (units : list N).

(** Truthiness of a [text]: a string with a code unit of 256 or above is
    not empty. *)
Definition truthy_text (t : text) : bool :=
  match t with
  | Narrow s => truthy s
  | Wide _ => true
  end.

(** The string of the embedding with these code units, when all of them
    are below 256. *)
Fixpoint narrow_units (units : list N) : option string :=
  match units with
  | [] => Some EmptyString
  | u :: rest =>
      if (u <? 256)%N then
        match narrow_units rest with
        | Some s => Some (String (ascii_of_N u) s)
        | None => None
        end
      else None
  end.

Definition text_of_units (units : list N) : text :=
  match narrow_units units with
  | Some s => Narrow s
  | None => Wide units
  end.

End Js.

Coercion Js.Narrow : string >-> Js.text.

(* ================================================================== *)
(** ** [URLSearchParams] *)
(* ================================================================== *)

Module UrlParams.

(** The list of pairs behind a [URLSearchParams] object, in insertion
    order. *)
Definition t := list (string * string).

Definition append (k v : string) (q : t) : t := (q ++ [(k, v)])%list.

(** [get]: the value of the first pair with that name. *)
Fixpoint get (k : string) (q : t) : option string :=
  match q with
  | [] => None
  | (k', v) :: rest => if String.eqb k k' then Some v else get k rest
  end.

Definition hex_digit (n : nat) : ascii :=
  if Nat.ltb n 10 then ascii_of_nat (48 + n) else ascii_of_nat (55 + n).

(** [%XX] with upper-case digits. *)
Definition percent (byte : nat) : string :=
  String "%" (String (hex_digit (Nat.div byte 16))
                (String (hex_digit (Nat.modulo byte 16)) EmptyString)).

(** Bytes that the application/x-www-form-urlencoded serializer leaves as
    they are: ASCII letters and digits, and [*], [-], [.], [_]. *)
Definition unreserved (n : nat) : bool :=
  (Nat.leb 48 n && Nat.leb n 57) || (Nat.leb 65 n && Nat.leb n 90)
  || (Nat.leb 97 n && Nat.leb n 122)
  || Nat.eqb n 42 || Nat.eqb n 45 || Nat.eqb n 46 || Nat.eqb n 95.

(** One code unit: a space becomes [+]; a code unit from 128 on is first
    encoded in UTF-8, on two bytes. *)
Definition encode_unit (c : ascii) : string :=
  let n := nat_of_ascii c in
  if Nat.eqb n 32 then "+"
  else if unreserved n then String c EmptyString
  else if Nat.ltb n 128 then percent n
  else percent (192 + Nat.div n 64) ++ percent (128 + Nat.modulo n 64).

Fixpoint encode (s : string) : string :=
  match s with
  | EmptyString => EmptyString
  | String c rest => encode_unit c ++ encode rest
  end.

(** [toString()]. *)
Definition toString (q : t) : string :=
  Js.join "&" (map (fun kv => encode (fst kv) ++ "=" ++ encode (snd kv)) q).

End UrlParams.

(* ================================================================== *)
(** ** types.ts *)
(* ================================================================== *)

(** The fields of [Workflow] carry the prefix [wf_]: [category] and [name]
    are also names of the filter state. *)
Record Workflow := {
  wf_workflowid : string;
  wf_name : string;
  wf_createdon : string;
  wf_modifiedon : string;
  wf_statecode : Z;
  wf_statuscode : Z;
  wf_uniquename : string;
  wf_category : Z;
  wf_description : option string
}.

Inductive Direction := ascending | descending.

Record SortConfig := {
  key : option string;
  direction : Direction
}.

Record WorkflowsResponse := {
  r_workflows : list Workflow;
  r_nextLink : option string;
  r_totalCount : Z;
  requestUrl : string
}.

(* ================================================================== *)
(** ** dataverseService.ts: the query builder *)
(* ================================================================== *)

Definition DATAVERSE_URL : string :=
  "https://wecare-ii.crm5.dynamics.com/api/data/v9.2/workflows".
Definition PAGE_SIZE : Z := 50.

Definition statusClause (status : Z) : string :=
  "statecode eq " ++ Js.string_of_number status.

Definition searchClause (searchTerm : string) : string :=
  let sanitizedSearch := Js.replace_quotes searchTerm in
  "(contains(name, '" ++ sanitizedSearch ++ "') or contains(uniquename, '"
    ++ sanitizedSearch ++ "'))".

Definition categoryClause (category : Z) : string :=
  "category eq " ++ Js.string_of_number category.

(** The array [filterClauses] once the three [if]s have run. *)
Definition filterClauses (searchTerm : string) (category status : option Z)
  : list string :=
  ((match status with
    | Some st => [statusClause st]
    | None => []
    end)
   ++ (if Js.truthy searchTerm then [searchClause searchTerm] else [])
   ++ (match category with
       | Some cat => if 0 <=? cat then [categoryClause cat] else []
       | None => []
       end))%list.

Definition orderby (sortConfig : SortConfig) : string :=
  if Js.truthy_opt (key sortConfig) then
    let dir := match direction sortConfig with
               | ascending => "asc"
               | descending => "desc"
               end in
    match key sortConfig with
    | Some k => k ++ " " ++ dir
    | None => "modifiedon desc"
    end
  else "modifiedon desc".

(** [queryParams] at the end of the [else] branch of [fetchWorkflows]. *)
Definition queryParams (sortConfig : SortConfig) (searchTerm : string)
    (category status : option Z) : UrlParams.t :=
  let q := UrlParams.append "$top" (Js.string_of_number PAGE_SIZE) [] in
  let q := UrlParams.append "$count" "true" q in
  let clauses := filterClauses searchTerm category status in
  let q := if (0 <? Z.of_nat (List.length clauses))
           then UrlParams.append "$filter" (Js.join " and " clauses) q
           else q in
  UrlParams.append "$orderby" (orderby sortConfig) q.

(** The locator [fetchUrl] that [fetchWorkflows] requests. *)
Definition fetchUrl (sortConfig : SortConfig) (searchTerm : string)
    (category status : option Z) (url : option string) : string :=
  match url with
  | Some u =>
      if Js.truthy u then u
      else DATAVERSE_URL ++ "?"
             ++ UrlParams.toString (queryParams sortConfig searchTerm category status)
  | None =>
      DATAVERSE_URL ++ "?"
        ++ UrlParams.toString (queryParams sortConfig searchTerm category status)
  end.

(* ================================================================== *)
(** ** JSON values and [JSON.parse] *)
(* ================================================================== *)

Module Json.

#[local] Set Warnings "-register-all".

Inductive value :=
| JNull
| JBool (b : bool)
| JNumber (literal : string)
| JString (s : Js.text)
| JArray (items : list value)
| JObject (members : list (Js.text * value)).

(** [data[k]] on the members of an object; of two members with one name
    [JSON.parse] keeps the later one. *)
Fixpoint property (k : string) (members : list (Js.text * value))
  : option value :=
  match members with
  | [] => None
  | (k', v) :: rest =>
      match property k rest with
      | Some later => Some later
      | None =>
          match k' with
          | Js.Narrow name => if String.eqb k name then Some v else None
          | Js.Wide _ => None
          end
      end
  end.

(** [data && typeof data === 'object']: objects and arrays. *)
Definition is_object (data : value) : bool :=
  match data with
  | JObject _ | JArray _ => true
  | _ => false
  end.

(** [data[k]] for a value that passed [is_object]; an array has no
    property with a textual name such as [token]. *)
Definition get (data : value) (k : string) : option value :=
  match data with
  | JObject members => property k members
  | _ => None
  end.

(** [typeof v === 'string' && v]. *)
Definition nonempty_string (v : option value) : option Js.text :=
  match v with
  | Some (JString s) => if Js.truthy_text s then Some s else None
  | _ => None
  end.

Definition dquote : ascii := ascii_of_nat 34.
Definition backslash : ascii := ascii_of_nat 92.

(** The text [s] between double quotes. *)
Definition quoted (s : string) : string :=
  String dquote (s ++ String dquote EmptyString).

Definition is_ws (c : ascii) : bool :=
  let n := nat_of_ascii c in
  Nat.eqb n 32 || Nat.eqb n 9 || Nat.eqb n 10 || Nat.eqb n 13.

Fixpoint skip_ws (s : string) : string :=
  match s with
  | String c rest => if is_ws c then skip_ws rest else s
  | EmptyString => EmptyString
  end.

Definition is_digit (c : ascii) : bool :=
  let n := nat_of_ascii c in Nat.leb 48 n && Nat.leb n 57.

Definition hex_value (c : ascii) : option nat :=
  let n := nat_of_ascii c in
  if Nat.leb 48 n && Nat.leb n 57 then Some (n - 48)%nat
  else if Nat.leb 65 n && Nat.leb n 70 then Some (n - 55)%nat
  else if Nat.leb 97 n && Nat.leb n 102 then Some (n - 87)%nat
  else None.

(** The digits at the head of [s], and what follows them. *)
Fixpoint digits (s : string) : string * string :=
  match s with
  | String c rest =>
      if is_digit c
      then let (d, r) := digits rest in (String c d, r)
      else (EmptyString, s)
  | EmptyString => (EmptyString, EmptyString)
  end.

(** The code units of a string, read from behind its opening quote, and
    what follows its closing quote. An escape [u] with four hexadecimal
    digits stands for the code unit of that number, whatever it is. *)
Fixpoint read_string (s : string) : option (list N * string) :=
  match s with
  | EmptyString => None
  | String c rest =>
      if Ascii.eqb c dquote then Some ([], rest)
      else if Ascii.eqb c backslash then
        match rest with
        | String e rest1 =>
            let keep (x : N) (tail : string) :=
              match read_string tail with
              | Some (t, r) => Some (x :: t, r)
              | None => None
              end in
            if Ascii.eqb e dquote then keep 34%N rest1
            else if Ascii.eqb e backslash then keep 92%N rest1
            else if Ascii.eqb e "/" then keep 47%N rest1
            else if Ascii.eqb e "b" then keep 8%N rest1
            else if Ascii.eqb e "f" then keep 12%N rest1
            else if Ascii.eqb e "n" then keep 10%N rest1
            else if Ascii.eqb e "r" then keep 13%N rest1
            else if Ascii.eqb e "t" then keep 9%N rest1
            else if Ascii.eqb e "u" then
              match rest1 with
              | String h1 (String h2 (String h3 (String h4 rest2))) =>
                  match hex_value h1, hex_value h2, hex_value h3, hex_value h4 with
                  | Some a, Some b, Some c, Some d =>
                      keep (N.of_nat (4096 * a + 256 * b + 16 * c + d)) rest2
                  | _, _, _, _ => None
                  end
              | _ => None
              end
            else None
        | EmptyString => None
        end
      else if Nat.ltb (nat_of_ascii c) 32 then None
      else
        match read_string rest with
        | Some (t, r) => Some (N_of_ascii c :: t, r)
        | None => None
        end
  end.

(** A number, read from its first character. *)
Definition read_number (s : string) : option (string * string) :=
  let (sign, s1) :=
    match s with
    | String c r => if Ascii.eqb c "-" then ("-", r) else (EmptyString, s)
    | EmptyString => (EmptyString, s)
    end in
  let (int, s2) := digits s1 in
  let int_ok :=
    match int with
    | EmptyString => false
    | String c EmptyString => true
    | String c _ => negb (Ascii.eqb c "0")
    end in
  if negb int_ok then None else
  let frac :=
    match s2 with
    | String c r =>
        if Ascii.eqb c "." then
          let (f, r') := digits r in
          if Js.truthy f then Some ("." ++ f, r') else None
        else Some (EmptyString, s2)
    | EmptyString => Some (EmptyString, s2)
    end in
  match frac with
  | None => None
  | Some (f, s3) =>
      let exp :=
        match s3 with
        | String c r =>
            if Ascii.eqb c "e" || Ascii.eqb c "E" then
              let (sg, r1) :=
                match r with
                | String c' r' =>
                    if Ascii.eqb c' "+" || Ascii.eqb c' "-"
                    then (String c' EmptyString, r') else (EmptyString, r)
                | EmptyString => (EmptyString, r)
                end in
              let (x, r2) := digits r1 in
              if Js.truthy x then Some (String c (sg ++ x), r2) else None
            else Some (EmptyString, s3)
        | EmptyString => Some (EmptyString, s3)
        end in
      match exp with
      | None => None
      | Some (x, s4) => Some (sign ++ int ++ f ++ x, s4)
      end
  end.

(** [s] without the prefix [p], when it starts with it. *)
Fixpoint strip (p s : string) : option string :=
  match p, s with
  | EmptyString, _ => Some s
  | String a p', String b s' => if Ascii.eqb a b then strip p' s' else None
  | String _ _, EmptyString => None
  end.

(** One value and the text behind it. [fuel] bounds the nesting depth and
    the number of members of one object or array. *)
Fixpoint read_value (fuel : nat) (s : string) {struct fuel}
  : option (value * string) :=
  match fuel with
  | O => None
  | S n =>
      match skip_ws s with
      | EmptyString => None
      | String c rest =>
          if Ascii.eqb c "{" then
            match skip_ws rest with
            | EmptyString => None
            | String c1 rest1 =>
                if Ascii.eqb c1 "}" then Some (JObject [], rest1)
                else
                  (fix members (k : nat) (r : string)
                       (acc : list (Js.text * value)) {struct k}
                     : option (value * string) :=
                     match k with
                     | O => None
                     | S k' =>
                         match skip_ws r with
                         | String q r1 =>
                             if Ascii.eqb q dquote then
                               match read_string r1 with
                               | Some (units, r2) =>
                                   let name := Js.text_of_units units in
                                   match skip_ws r2 with
                                   | String colon r3 =>
                                       if Ascii.eqb colon ":" then
                                         match read_value n r3 with
                                         | Some (v, r4) =>
                                             match skip_ws r4 with
                                             | String sep r5 =>
                                                 if Ascii.eqb sep ","
                                                 then members k' r5 (acc ++ [(name, v)])%list
                                                 else if Ascii.eqb sep "}"
                                                 then Some (JObject (acc ++ [(name, v)])%list, r5)
                                                 else None
                                             | EmptyString => None
                                             end
                                         | None => None
                                         end
                                       else None
                                   | EmptyString => None
                                   end
                               | None => None
                               end
                             else None
                         | EmptyString => None
                         end
                     end) n (String c1 rest1) []
            end
          else if Ascii.eqb c "[" then
            match skip_ws rest with
            | EmptyString => None
            | String c1 rest1 =>
                if Ascii.eqb c1 "]" then Some (JArray [], rest1)
                else
                  (fix items (k : nat) (r : string) (acc : list value)
                       {struct k} : option (value * string) :=
                     match k with
                     | O => None
                     | S k' =>
                         match read_value n r with
                         | Some (v, r1) =>
                             match skip_ws r1 with
                             | String sep r2 =>
                                 if Ascii.eqb sep ","
                                 then items k' r2 (acc ++ [v])%list
                                 else if Ascii.eqb sep "]"
                                 then Some (JArray (acc ++ [v])%list, r2)
                                 else None
                             | EmptyString => None
                             end
                         | None => None
                         end
                     end) n (String c1 rest1) []
            end
          else if Ascii.eqb c dquote then
            match read_string rest with
            | Some (units, r) => Some (JString (Js.text_of_units units), r)
            | None => None
            end
          else if Ascii.eqb c "t" then
            option_map (fun r => (JBool true, r)) (strip "rue" rest)
          else if Ascii.eqb c "f" then
            option_map (fun r => (JBool false, r)) (strip "alse" rest)
          else if Ascii.eqb c "n" then
            option_map (fun r => (JNull, r)) (strip "ull" rest)
          else
            option_map (fun nr => (JNumber (fst nr), snd nr))
              (read_number (String c rest))
      end
  end.

(** [JSON.parse(text)]; [None] when it throws a [SyntaxError]. *)
Definition parse (text : string) : option value :=
  match read_value (S (String.length text)) text with
  | Some (v, rest) =>
      match skip_ws rest with
      | EmptyString => Some v
      | String _ _ => None
      end
  | None => None
  end.

End Json.

(* ================================================================== *)
(** ** dataverseService.ts: the two endpoints *)
(* ================================================================== *)

(** What a [throw] or a rejected promise carries: an [Error] with its
    message, or a value that is no [Error]. *)
Inductive Thrown :=
| JsError (message : string)
| NotAnError.

Inductive Result (A : Type) :=
| Ok (a : A)
| Throw (e : Thrown).
Arguments Ok {A} & a.
Arguments Throw {A} e.

(** The response of the credential endpoint, as far as it is read. *)
Record TokenResponse := {
  tok_ok : bool;
  tok_status : Z;
  tok_text : string
}.

(** The decoded body of the data endpoint; [None] is an absent field. *)
Record ODataBody := {
  value : list Workflow;
  odata_nextLink : option string;
  odata_count : option Z
}.

Record DataResponse := {
  dat_ok : bool;
  dat_status : Z;
  dat_text : string;
  dat_json : Result ODataBody
}.

(** The remote side during one call of [fetchWorkflows]: what [fetch]
    gives for the credential request, and for a data request by locator and
    bearer token. [Throw] is a rejected [fetch]. *)
Record Server := {
  post_token : Result TokenResponse;
  get_data : string -> Js.text -> Result DataResponse
}.

(** The token read from the body of a successful response: the [try] block
    and the fall-back behind it. *)
Definition tokenOfBody (responseText : string) : Js.text :=
  let fromJson :=
    match Json.parse responseText with
    | Some data =>
        if Json.is_object data then
          match Json.nonempty_string (Json.get data "token") with
          | Some token => Some token
          | None => Json.nonempty_string (Json.get data "accessToken")
          end
        else None
    | None => None
    end in
  match fromJson with
  | Some token => token
  | None => Js.trim responseText
  end.

Definition getAuthToken (srv : Server) : Result Js.text :=
  match post_token srv with
  | Throw e => Throw e
  | Ok response =>
      if negb (tok_ok response) then
        Throw (JsError ("HTTP error " ++ Js.string_of_number (tok_status response)
                          ++ " while fetching token."))
      else Ok (tokenOfBody (tok_text response))
  end.

(** [Omit<WorkflowsResponse, 'requestUrl'>]. *)
Record PageData := {
  p_workflows : list Workflow;
  p_nextLink : option string;
  p_totalCount : Z
}.

Definition getWorkflowsFromUrl (srv : Server) (url : string)
    (token : Js.text) : Result PageData :=
  match get_data srv url token with
  | Throw e => Throw e
  | Ok response =>
      if negb (dat_ok response) then
        Throw (JsError ("HTTP error " ++ Js.string_of_number (dat_status response)
                          ++ " while fetching workflows."))
      else
        match dat_json response with
        | Throw e => Throw e
        | Ok data =>
            Ok {| p_workflows := value data;
                  p_nextLink := if Js.truthy_opt (odata_nextLink data)
                                then odata_nextLink data else None;
                  p_totalCount := match odata_count data with
                                  | Some n => if n =? 0 then 0 else n
                                  | None => 0
                                  end |}
        end
  end.

Definition fetchWorkflows (srv : Server) (sortConfig : SortConfig)
    (searchTerm : string) (category status : option Z) (url : option string)
  : Result WorkflowsResponse :=
  match getAuthToken srv with
  | Throw e => Throw e
  | Ok token =>
      let target := fetchUrl sortConfig searchTerm category status url in
      match getWorkflowsFromUrl srv target token with
      | Ok response =>
          Ok {| r_workflows := p_workflows response;
                r_nextLink := p_nextLink response;
                r_totalCount := p_totalCount response;
                requestUrl := target |}
      | Throw e => Throw e
      end
  end.

(* ================================================================== *)
(** ** App.tsx: the state of the component *)
(* ================================================================== *)

Record Filters := {
  search : string;
  category : option Z;
  status : option Z
}.

Record AppState := {
  workflows : list Workflow;
  isLoading : bool;
  error : option string;
  sortConfig : SortConfig;
  searchTerm : string;
  selectedCategory : option Z;
  selectedStatus : option Z;
  appliedFilters : Filters;
  totalCount : Z;
  currentPage : Z;
  nextLink : option string;
  pageUrlHistory : list string
}.

(** The state setters of [useState]. *)
Definition setWorkflows (v : list Workflow) (s : AppState) : AppState :=
  {| workflows := v; isLoading := isLoading s; error := error s;
     sortConfig := sortConfig s; searchTerm := searchTerm s;
     selectedCategory := selectedCategory s; selectedStatus := selectedStatus s;
     appliedFilters := appliedFilters s; totalCount := totalCount s;
     currentPage := currentPage s; nextLink := nextLink s;
     pageUrlHistory := pageUrlHistory s |}.

Definition setIsLoading (v : bool) (s : AppState) : AppState :=
  {| workflows := workflows s; isLoading := v; error := error s;
     sortConfig := sortConfig s; searchTerm := searchTerm s;
     selectedCategory := selectedCategory s; selectedStatus := selectedStatus s;
     appliedFilters := appliedFilters s; totalCount := totalCount s;
     currentPage := currentPage s; nextLink := nextLink s;
     pageUrlHistory := pageUrlHistory s |}.

Definition setError (v : option string) (s : AppState) : AppState :=
  {| workflows := workflows s; isLoading := isLoading s; error := v;
     sortConfig := sortConfig s; searchTerm := searchTerm s;
     selectedCategory := selectedCategory s; selectedStatus := selectedStatus s;
     appliedFilters := appliedFilters s; totalCount := totalCount s;
     currentPage := currentPage s; nextLink := nextLink s;
     pageUrlHistory := pageUrlHistory s |}.

Definition setSortConfig (v : SortConfig) (s : AppState) : AppState :=
  {| workflows := workflows s; isLoading := isLoading s; error := error s;
     sortConfig := v; searchTerm := searchTerm s;
     selectedCategory := selectedCategory s; selectedStatus := selectedStatus s;
     appliedFilters := appliedFilters s; totalCount := totalCount s;
     currentPage := currentPage s; nextLink := nextLink s;
     pageUrlHistory := pageUrlHistory s |}.

Definition setSearchTerm (v : string) (s : AppState) : AppState :=
  {| workflows := workflows s; isLoading := isLoading s; error := error s;
     sortConfig := sortConfig s; searchTerm := v;
     selectedCategory := selectedCategory s; selectedStatus := selectedStatus s;
     appliedFilters := appliedFilters s; totalCount := totalCount s;
     currentPage := currentPage s; nextLink := nextLink s;
     pageUrlHistory := pageUrlHistory s |}.

Definition setSelectedCategory (v : option Z) (s : AppState) : AppState :=
  {| workflows := workflows s; isLoading := isLoading s; error := error s;
     sortConfig := sortConfig s; searchTerm := searchTerm s;
     selectedCategory := v; selectedStatus := selectedStatus s;
     appliedFilters := appliedFilters s; totalCount := totalCount s;
     currentPage := currentPage s; nextLink := nextLink s;
     pageUrlHistory := pageUrlHistory s |}.

Definition setSelectedStatus (v : option Z) (s : AppState) : AppState :=
  {| workflows := workflows s; isLoading := isLoading s; error := error s;
     sortConfig := sortConfig s; searchTerm := searchTerm s;
     selectedCategory := selectedCategory s; selectedStatus := v;
     appliedFilters := appliedFilters s; totalCount := totalCount s;
     currentPage := currentPage s; nextLink := nextLink s;
     pageUrlHistory := pageUrlHistory s |}.

Definition setAppliedFilters (v : Filters) (s : AppState) : AppState :=
  {| workflows := workflows s; isLoading := isLoading s; error := error s;
     sortConfig := sortConfig s; searchTerm := searchTerm s;
     selectedCategory := selectedCategory s; selectedStatus := selectedStatus s;
     appliedFilters := v; totalCount := totalCount s;
     currentPage := currentPage s; nextLink := nextLink s;
     pageUrlHistory := pageUrlHistory s |}.

Definition setTotalCount (v : Z) (s : AppState) : AppState :=
  {| workflows := workflows s; isLoading := isLoading s; error := error s;
     sortConfig := sortConfig s; searchTerm := searchTerm s;
     selectedCategory := selectedCategory s; selectedStatus := selectedStatus s;
     appliedFilters := appliedFilters s; totalCount := v;
     currentPage := currentPage s; nextLink := nextLink s;
     pageUrlHistory := pageUrlHistory s |}.

Definition setCurrentPage (v : Z) (s : AppState) : AppState :=
  {| workflows := workflows s; isLoading := isLoading s; error := error s;
     sortConfig := sortConfig s; searchTerm := searchTerm s;
     selectedCategory := selectedCategory s; selectedStatus := selectedStatus s;
     appliedFilters := appliedFilters s; totalCount := totalCount s;
     currentPage := v; nextLink := nextLink s;
     pageUrlHistory := pageUrlHistory s |}.

Definition setNextLink (v : option string) (s : AppState) : AppState :=
  {| workflows := workflows s; isLoading := isLoading s; error := error s;
     sortConfig := sortConfig s; searchTerm := searchTerm s;
     selectedCategory := selectedCategory s; selectedStatus := selectedStatus s;
     appliedFilters := appliedFilters s; totalCount := totalCount s;
     currentPage := currentPage s; nextLink := v;
     pageUrlHistory := pageUrlHistory s |}.

Definition setPageUrlHistory (v : list string) (s : AppState) : AppState :=
  {| workflows := workflows s; isLoading := isLoading s; error := error s;
     sortConfig := sortConfig s; searchTerm := searchTerm s;
     selectedCategory := selectedCategory s; selectedStatus := selectedStatus s;
     appliedFilters := appliedFilters s; totalCount := totalCount s;
     currentPage := currentPage s; nextLink := nextLink s;
     pageUrlHistory := v |}.

(** The values of the first render. *)
Definition initialState : AppState :=
  {| workflows := [];
     isLoading := true;
     error := None;
     sortConfig := {| key := Some "modifiedon"; direction := descending |};
     searchTerm := "";
     selectedCategory := None;
     selectedStatus := None;
     appliedFilters := {| search := ""; category := None; status := None |};
     totalCount := 0;
     currentPage := 1;
     nextLink := None;
     pageUrlHistory := [] |}.

(* ================================================================== *)
(** ** App.tsx: the handlers *)
(* ================================================================== *)

(** A call of [fetchPageData] whose promise is not settled yet, with the
    values its closure holds. *)
Record Call := {
  c_sortConfig : SortConfig;
  c_filters : Filters;
  c_url : option string;
  c_isNewQuery : bool
}.

(** The rendered state together with the calls in flight, oldest first. *)
Record World := {
  ui : AppState;
  inflight : list Call
}.

Definition with_ui (s : AppState) (w : World) : World :=
  {| ui := s; inflight := inflight w |}.

(** The call that [fetchPageData(url, isNewQuery)] of the render [s]
    makes: its closure holds the sort and the applied filters of [s]. *)
Definition callOf (s : AppState) (url : option string) (isNewQuery : bool)
  : Call :=
  {| c_sortConfig := sortConfig s;
     c_filters := appliedFilters s;
     c_url := url;
     c_isNewQuery := isNewQuery |}.

(** [fetchPageData(url, isNewQuery)] up to its [await]: the two setters,
    and the call to [fetchWorkflows] goes out. *)
Definition fetchPageData_start (url : option string) (isNewQuery : bool)
    (w : World) : World :=
  let s := ui w in
  {| ui := setError None (setIsLoading true s);
     inflight := (inflight w ++ [callOf s url isNewQuery])%list |}.

(** What [fetchWorkflows] returns for a call, once the remote side has
    answered. *)
Definition perform (srv : Server) (c : Call) : Result WorkflowsResponse :=
  fetchWorkflows srv (c_sortConfig c) (search (c_filters c))
    (category (c_filters c)) (status (c_filters c)) (c_url c).

(** [fetchPageData] from its [await] on: the rest of [try], or [catch],
    and [finally]. *)
Definition fetchPageData_settle (isNewQuery : bool)
    (outcome : Result WorkflowsResponse) (s : AppState) : AppState :=
  let s :=
    match outcome with
    | Ok data =>
        let s := setWorkflows (r_workflows data) s in
        let s := setTotalCount (r_totalCount data) s in
        let s := setNextLink (r_nextLink data) s in
        if isNewQuery
        then setPageUrlHistory [requestUrl data] (setCurrentPage 1 s)
        else s
    | Throw (JsError message) =>
        setError (Some ("Failed to fetch data: " ++ message
                          ++ ". Please check console for details.")) s
    | Throw NotAnError =>
        setError (Some "An unknown error occurred.") s
    end in
  setIsLoading false s.

(** [l] without its element at index [i]. *)
Fixpoint remove_at {A : Type} (i : nat) (l : list A) : list A :=
  match l, i with
  | [], _ => []
  | _ :: rest, O => rest
  | x :: rest, S j => x :: remove_at j rest
  end.

(** The call at index [i] is settled against [srv]. *)
Definition settle (i : nat) (srv : Server) (w : World) : World :=
  match nth_error (inflight w) i with
  | None => w
  | Some c =>
      {| ui := fetchPageData_settle (c_isNewQuery c) (perform srv c) (ui w);
         inflight := remove_at i (inflight w) |}
  end.

(** The effect on [appliedFilters], [sortConfig]: a new query. *)
Definition newQueryEffect (w : World) : World :=
  fetchPageData_start None true w.

Definition handleSort (k : string) (w : World) : World :=
  let prevConfig := sortConfig (ui w) in
  let same := match key prevConfig with
              | Some k' => String.eqb k' k
              | None => false
              end in
  let dir := match direction prevConfig with
             | ascending => if same then descending else ascending
             | descending => ascending
             end in
  newQueryEffect
    (with_ui (setSortConfig {| key := Some k; direction := dir |} (ui w)) w).

Definition handleApplyFilters (w : World) : World :=
  let s := ui w in
  newQueryEffect
    (with_ui (setAppliedFilters {| search := searchTerm s;
                                   category := selectedCategory s;
                                   status := selectedStatus s |} s) w).

Definition handleNextPage (w : World) : World :=
  let s := ui w in
  if negb (Js.truthy_opt (nextLink s)) || isLoading s then w
  else
    match nextLink s with
    | None => w
    | Some link =>
        let s := setCurrentPage (currentPage s + 1) s in
        let s := setPageUrlHistory (pageUrlHistory s ++ [link])%list s in
        fetchPageData_start (Some link) false (with_ui s w)
    end.

(** [newHistory[newHistory.length - 1]]. *)
Definition last_entry (l : list string) : option string :=
  match l with
  | [] => None
  | _ :: _ => nth_error l (List.length l - 1)
  end.

Definition handlePrevPage (w : World) : World :=
  let s := ui w in
  if (currentPage s <=? 1) || isLoading s then w
  else
    let newHistory := removelast (pageUrlHistory s) in
    match last_entry newHistory with
    | Some prevPageUrl =>
        if Js.truthy prevPageUrl then
          let s := setCurrentPage (currentPage s - 1) s in
          let s := setPageUrlHistory newHistory s in
          fetchPageData_start (Some prevPageUrl) false (with_ui s w)
        else w
    | None => w
    end.

(** What can happen to the mounted component: the user edits a draft
    filter, applies the filters, sorts by a column, asks for the next or
    the previous page, or a call in flight is settled. *)
Inductive Event :=
| SearchChange (text : string)
| CategoryChange (c : option Z)
| StatusChange (c : option Z)
| ApplyFilters
| Sort (k : string)
| NextPage
| PrevPage
| Settle (i : nat) (srv : Server).

Definition step (e : Event) (w : World) : World :=
  match e with
  | SearchChange text => with_ui (setSearchTerm text (ui w)) w
  | CategoryChange c => with_ui (setSelectedCategory c (ui w)) w
  | StatusChange c => with_ui (setSelectedStatus c (ui w)) w
  | ApplyFilters => handleApplyFilters w
  | Sort k => handleSort k w
  | NextPage => handleNextPage w
  | PrevPage => handlePrevPage w
  | Settle i srv => settle i srv w
  end.

Definition run (events : list Event) (w : World) : World :=
  fold_left (fun w e => step e w) events w.

(** The component after its first render: the effect has sent the first
    query. *)
Definition mount : World :=
  newQueryEffect {| ui := initialState; inflight := [] |}.

Inductive reachable : World -> Prop :=
| reach_mount : reachable mount
| reach_step (e : Event) (w : World) : reachable w -> reachable (step e w).

(** The pagination invariant of the specification. *)
Definition consistent (s : AppState) : Prop :=
  Z.of_nat (List.length (pageUrlHistory s)) = currentPage s.

(** A call fails when [fetchWorkflows] throws. *)
Definition fails (srv : Server) (c : Call) : bool :=
  match perform srv c with
  | Ok _ => false
  | Throw _ => true
  end.

(* ================================================================== *)
(** ** Remote sides used in the examples *)
(* ================================================================== *)

Definition plainToken (body : string) : Result TokenResponse :=
  Ok {| tok_ok := true; tok_status := 200; tok_text := body |}.

(** A remote side that serves one page, with the given forward cursor. *)
Definition serving (rows : list Workflow) (next : option string) (count : Z)
  : Server :=
  {| post_token := plainToken "abc123";
     get_data := fun _ _ =>
       Ok {| dat_ok := true; dat_status := 200; dat_text := "";
             dat_json := Ok {| value := rows; odata_nextLink := next;
                               odata_count := Some count |} |} |}.

(** A remote side whose data endpoint answers 500. *)
Definition failing : Server :=
  {| post_token := plainToken "abc123";
     get_data := fun _ _ =>
       Ok {| dat_ok := false; dat_status := 500; dat_text := "down";
             dat_json := Throw (JsError "Unexpected token") |} |}.

(** A remote side of which only the credential endpoint matters. *)
Definition credentialServer (body : string) : Server :=
  {| post_token := plainToken body;
     get_data := fun _ _ => Throw NotAnError |}.

(** Page 1 of the first query is shown, and there is a next page [B]. *)
Definition page1_world : World :=
  run [Settle 0 (serving [] (Some "B") 120)] mount.

(** Page 2 is shown, after a successful step forward. *)
Definition page2_world : World :=
  run [NextPage; Settle 0 (serving [] None 120)] page1_world.

(** The filters were applied while the first query was in flight; the first
    query has been answered, the second has not. *)
Definition overlap_world : World :=
  run [ApplyFilters; Settle 0 (serving [] (Some "B") 120)] mount.

(** The triggers that start a new query. *)
Definition is_new_query (e : Event) : bool :=
  match e with
  | ApplyFilters | Sort _ => true
  | _ => false
  end.

(** At most one call is in flight, and the loading flag tells whether one
    is. *)
Definition single_flight (w : World) : Prop :=
  (inflight w = [] /\ isLoading (ui w) = false)
  \/ (exists c, inflight w = [c] /\ isLoading (ui w) = true).

(** What holds of every state the component reaches. Before the first
    answer the history is empty and only new queries are in flight; from
    the first answer on the history has one entry per page. *)
Definition wellformed (w : World) : Prop :=
  Forall (fun u => Js.truthy u = true) (pageUrlHistory (ui w))
  /\ (nextLink (ui w) = None \/ Js.truthy_opt (nextLink (ui w)) = true)
  /\ ((consistent (ui w) /\ 1 <= currentPage (ui w))
      \/ (pageUrlHistory (ui w) = [] /\ currentPage (ui w) = 1
          /\ nextLink (ui w) = None
          /\ Forall (fun c => c_isNewQuery c = true) (inflight w)))
  /\ (isLoading (ui w) = true -> inflight w <> []).

(* ================================================================== *)
(** ** String literals of the query language *)
(* ================================================================== *)

Module OData.

(** The lexical rule for a string literal of the OData filter language:
    a quote opens it, a quote closes it, and between the two a pair of
    quotes stands for one quote. [read_literal] starts behind the opening
    quote and gives the text the literal denotes and what follows its
    closing quote; [None] when the literal is not closed. *)
Fixpoint read_literal (s : string) : option (string * string) :=
  match s with
  | EmptyString => None
  | String c rest =>
      if Ascii.eqb c Js.quote then
        match rest with
        | String c' rest' =>
            if Ascii.eqb c' Js.quote then
              match read_literal rest' with
              | Some (t, r) => Some (String Js.quote t, r)
              | None => None
              end
            else Some (EmptyString, rest)
        | EmptyString => Some (EmptyString, EmptyString)
        end
      else
        match read_literal rest with
        | Some (t, r) => Some (String c t, r)
        | None => None
        end
  end.

Fixpoint count_quotes (s : string) : nat :=
  match s with
  | EmptyString => O
  | String c rest =>
      if Ascii.eqb c Js.quote then S (count_quotes rest) else count_quotes rest
  end.

Definition starts_with_quote (s : string) : bool :=
  match s with
  | String c _ => Ascii.eqb c Js.quote
  | EmptyString => false
  end.

End OData.

(* ================================================================== *)
(** ** App.tsx: what is rendered *)
(* ================================================================== *)

(** The double that is nearest to the quotient of two positive integers,
    ties to even, as its significand [m] and exponent [e]: the double is
    [m * 2^e], with [2^52 <= m <= 2^53]. (A quotient below the normal
    range of doubles is rounded more coarsely than this; it lies between
    0 and 1 either way, and so does its ceiling.) *)
Definition nearest_double (a b : Z) : Z * Z :=
  let scaled (e : Z) := (a * 2 ^ Z.max 0 (- e), b * 2 ^ Z.max 0 e) in
  let e0 := Z.log2 a - Z.log2 b - 52 in
  let e := if fst (scaled e0) <? 2 ^ 52 * snd (scaled e0) then e0 - 1 else e0 in
  let num := fst (scaled e) in
  let den := snd (scaled e) in
  let f := num / den in
  let r := num mod den in
  let m := if (den <? 2 * r) || ((den =? 2 * r) && Z.odd f) then f + 1 else f in
  (m, e).

(** [Math.ceil(a / b)] for integers [a] and [b]: the quotient is the double
    nearest to the exact one, and the ceiling is taken of that double.
    (For [b = 0] the quotient of the source is infinite or no number, and
    no integer stands for the result; [App] divides by 50.) *)
Definition ceil_div (a b : Z) : Z :=
  if (a =? 0) || (b =? 0) then 0
  else
    let (m, e) := nearest_double (Z.abs a) (Z.abs b) in
    let positive := Z.sgn a =? Z.sgn b in
    if 0 <=? e then (if positive then m * 2 ^ e else - (m * 2 ^ e))
    else if positive then - ((- m) / 2 ^ (- e))
    else - (m / 2 ^ (- e)).

(** What the [Pagination] component shows. *)
Record PaginationView := {
  totalPages : Z;
  startIndex : Z;
  endIndex : Z;
  hasPrevPage : bool;
  prevDisabled : bool;
  nextDisabled : bool
}.

(** [Pagination]: nothing is rendered for a total of 0. *)
Definition Pagination (page pageSize total : Z) (hasNextPage : bool)
  : option PaginationView :=
  if total =? 0 then None
  else
    let hasPrev := 1 <? page in
    Some {| totalPages := ceil_div total pageSize;
            startIndex := (page - 1) * pageSize + 1;
            endIndex := Z.min (page * pageSize) total;
            hasPrevPage := hasPrev;
            prevDisabled := negb hasPrev;
            nextDisabled := negb hasNextPage |}.

(** [pageSize] of [App]. *)
Definition pageSize : Z := 50.

(** The [Pagination] element of [App]. *)
Definition paginationOf (s : AppState) : option PaginationView :=
  Pagination (currentPage s) pageSize (totalCount s)
    (Js.truthy_opt (nextLink s)).

(** [!isLoading && !error]: the table is rendered. *)
Definition tableVisible (s : AppState) : bool :=
  negb (isLoading s) && negb (Js.truthy_opt (error s)).

Definition CATEGORIES : list (Z * string) :=
  [(0, "Workflow"); (1, "Dialog"); (2, "Business Rule"); (3, "Action");
   (4, "Business Process Flow"); (5, "Modern Flow")].

Definition STATUSES : list (Z * string) :=
  [(0, "Draft"); (1, "Activated")].

(** [table[k]] for one of the two tables above. *)
Fixpoint label_of (k : Z) (table : list (Z * string)) : option string :=
  match table with
  | [] => None
  | (k', label) :: rest => if k =? k' then Some label else label_of k rest
  end.

(* ================================================================== *)
(** ** App.tsx: the theme *)
(* ================================================================== *)

Inductive Theme := light | dark.

(** The string that a theme is. *)
Definition themeName (t : Theme) : string :=
  match t with
  | light => "light"
  | dark => "dark"
  end.

Module Storage.

(** A [Storage] object: its pairs, in the order of insertion. *)
Definition t := list (string * string).

Fixpoint getItem (k : string) (st : t) : option string :=
  match st with
  | [] => None
  | (k', v) :: rest => if String.eqb k k' then Some v else getItem k rest
  end.

(** [setItem]: the value of a key that is there is replaced, a new key
    goes to the end. *)
Fixpoint setItem (k v : string) (st : t) : t :=
  match st with
  | [] => [(k, v)]
  | (k', v') :: rest =>
      if String.eqb k k' then (k', v) :: rest
      else (k', v') :: setItem k v rest
  end.

End Storage.

Module ClassList.

(** A [DOMTokenList]: tokens, each one once. *)
Definition t := list string.

Definition contains (token : string) (l : t) : bool :=
  existsb (String.eqb token) l.

Definition add (token : string) (l : t) : t :=
  if contains token l then l else (l ++ [token])%list.

Definition remove (token : string) (l : t) : t :=
  filter (fun x => negb (String.eqb token x)) l.

End ClassList.

(** The part of the browser that the theme touches. [hasStorage] is
    [typeof window !== 'undefined' && window.localStorage]. *)
Record Browser := {
  hasStorage : bool;
  localStorage : Storage.t;
  prefersDark : bool;
  classList : ClassList.t
}.

Definition getInitialTheme (b : Browser) : Theme :=
  if hasStorage b then
    match Storage.getItem "theme" (localStorage b) with
    | Some stored =>
        if String.eqb stored "light" then light
        else if String.eqb stored "dark" then dark
        else if prefersDark b then dark else light
    | None => if prefersDark b then dark else light
    end
  else light.

Definition toggleTheme (prevTheme : Theme) : Theme :=
  match prevTheme with
  | light => dark
  | dark => light
  end.

(** The effect on [theme]: the class [dark] of the document element is set
    or removed, then the theme is stored. [None]: there is no
    [localStorage], and [setItem] throws (after the class was changed). *)
Definition themeEffect (theme : Theme) (b : Browser) : option Browser :=
  let classes :=
    match theme with
    | dark => ClassList.add "dark" (classList b)
    | light => ClassList.remove "dark" (classList b)
    end in
  if hasStorage b then
    Some {| hasStorage := true;
            localStorage := Storage.setItem "theme" (themeName theme) (localStorage b);
            prefersDark := prefersDark b;
            classList := classes |}
  else None.

(* ================================================================== *)
(** ** WorkflowTable.tsx *)
(* ================================================================== *)

Record StatusBadge := {
  badge_text : string;
  badge_color : string
}.

Definition getStatus (statecode statuscode : Z) : StatusBadge :=
  if statecode =? 0 then
    {| badge_text := "Draft";
       badge_color := "bg-yellow-100 text-yellow-800 dark:bg-yellow-900/50 dark:text-yellow-300" |}
  else if (statecode =? 1) && (statuscode =? 2) then
    {| badge_text := "Activated";
       badge_color := "bg-green-100 text-green-800 dark:bg-green-900/50 dark:text-green-300" |}
  else
    {| badge_text := "Inactive";
       badge_color := "bg-gray-100 text-gray-800 dark:bg-gray-700 dark:text-gray-300" |}.

Definition getCategory (c : Z) : string :=
  if c =? 0 then "Workflow"
  else if c =? 1 then "Dialog"
  else if c =? 2 then "Business Rule"
  else if c =? 3 then "Action"
  else if c =? 4 then "Business Process Flow"
  else if c =? 5 then "Modern Flow"
  else "Unknown".

(** [direction] of [TableHeader]: the direction of the sort when the table
    is sorted by this header, [undefined] otherwise. *)
Definition headerDirection (sc : SortConfig) (sortKey : string)
  : option Direction :=
  match key sc with
  | Some k => if String.eqb k sortKey then Some (direction sc) else None
  | None => None
  end.

(** The sort keys of the five headers of [WorkflowTable], left to right. *)
Definition columns : list string :=
  ["name"; "category"; "statecode"; "modifiedon"; "createdon"].

(** The draft edits among the events. *)
Definition is_draft_edit (e : Event) : bool :=
  match e with
  | SearchChange _ | CategoryChange _ | StatusChange _ => true
  | _ => false
  end.

(** One call at most is in flight, the flag tells whether one is, and
    while one is no message is shown. *)
Definition single_flight_clean (w : World) : Prop :=
  (inflight w = [] /\ isLoading (ui w) = false)
  \/ (exists c, inflight w = [c] /\ isLoading (ui w) = true
                /\ error (ui w) = None).

(** How often the character [c] occurs in [s]. *)
Fixpoint count_char (c : ascii) (s : string) : nat :=
  match s with
  | EmptyString => O
  | String x rest =>
      if Ascii.eqb x c then S (count_char c rest) else count_char c rest
  end.

(** The first and the last character of a string. *)
Definition first_char (s : string) : option ascii :=
  match s with
  | EmptyString => None
  | String c _ => Some c
  end.

Fixpoint last_char (s : string) : option ascii :=
  match s with
  | EmptyString => None
  | String c rest =>
      match last_char rest with
      | Some l => Some l
      | None => Some c
      end
  end.

(** Every character of [s] is white space. *)
Fixpoint blank (s : string) : bool :=
  match s with
  | EmptyString => true
  | String c rest => Js.is_space c && blank rest
  end.

(** A remote side whose credential endpoint answers 401. *)
Definition denying : Server :=
  {| post_token := Ok {| tok_ok := false; tok_status := 401;
                         tok_text := "denied" |};
     get_data := get_data (serving [] None 3) |}.

(** The locator that a call asks the data endpoint for. *)
Definition locatorOf (c : Call) : string :=
  fetchUrl (c_sortConfig c) (search (c_filters c)) (category (c_filters c))
    (status (c_filters c)) (c_url c).

(** The state without the three draft fields. *)
Definition committed (s : AppState) :=
  (workflows s, isLoading s, error s, sortConfig s, appliedFilters s,
   totalCount s, currentPage s, nextLink s, pageUrlHistory s).

(** Every character of [s] satisfies [p]. *)
Fixpoint all_chars (p : ascii -> bool) (s : string) : bool :=
  match s with
  | EmptyString => true
  | String c rest => p c && all_chars p rest
  end.

(** The characters that a serialized name or value is made of: those left
    as they are, [+] and [%]. *)
Definition url_safe (c : ascii) : bool :=
  UrlParams.unreserved (nat_of_ascii c)
  || Ascii.eqb c "+" || Ascii.eqb c "%".

(** The message that [fetchPageData] shows for an [Error]. *)
Definition shownMessage (message : string) : string :=
  "Failed to fetch data: " ++ message ++ ". Please check console for details.".

(* ================================================================== *)
(** * Properties of the query builder *)
(* ================================================================== *)

Section QueryBuilder.

Variable sc : SortConfig.
Variable searchTerm : string.
Variables category status : option Z.

Lemma get_append_same (k v : string) (q : UrlParams.t) :
  UrlParams.get k q = None ->
  UrlParams.get k (UrlParams.append k v q) = Some v.
Proof.
  unfold UrlParams.append.
  induction q as [|[k' v'] q IH]; simpl; intros H.
  - now rewrite String.eqb_refl.
  - destruct (String.eqb k k'); [discriminate | auto].
Qed.

Lemma get_append_other (k k' v : string) (q : UrlParams.t) :
  String.eqb k k' = false ->
  UrlParams.get k (UrlParams.append k' v q) = UrlParams.get k q.
Proof.
  unfold UrlParams.append. intros Hk.
  induction q as [|[k0 v0] q IH]; simpl.
  - now rewrite Hk.
  - now rewrite IH.
Qed.

Lemma orderby_param :
  UrlParams.get "$orderby" (queryParams sc searchTerm category status)
  = Some (orderby sc).
Proof.
  unfold queryParams.
  destruct (0 <? Z.of_nat (List.length (filterClauses searchTerm category status)));
    apply get_append_same; reflexivity.
Qed.

Lemma filter_param :
  UrlParams.get "$filter" (queryParams sc searchTerm category status)
  = match filterClauses searchTerm category status with
    | [] => None
    | clauses => Some (Js.join " and " clauses)
    end.
Proof.
  unfold queryParams.
  rewrite get_append_other by reflexivity.
  destruct (filterClauses searchTerm category status) as [|c cs]; reflexivity.
Qed.

End QueryBuilder.

Lemma count_quotes_replace (s : string) :
  OData.count_quotes (Js.replace_quotes s) = (2 * OData.count_quotes s)%nat.
Proof.
  induction s as [|c s IH]; simpl; [reflexivity|].
  destruct (Ascii.eqb c Js.quote) eqn:E; simpl.
  - rewrite IH. lia.
  - now rewrite E.
Qed.

Lemma read_literal_replace (s rest : string) :
  OData.starts_with_quote rest = false ->
  OData.read_literal (Js.replace_quotes s ++ String Js.quote rest)
  = Some (s, rest).
Proof.
  intros Hrest. induction s as [|c s IH]; simpl.
  - destruct rest as [|c' rest']; [reflexivity|].
    simpl in Hrest. now rewrite Hrest.
  - destruct (Ascii.eqb c Js.quote) eqn:E; simpl.
    + apply Ascii.eqb_eq in E. subst c. now rewrite IH.
    + now rewrite E, IH.
Qed.

Lemma in_search_clause (s : string) (category status : option Z) :
  Js.truthy s = true ->
  In (searchClause s) (filterClauses s category status).
Proof.
  intros H. unfold filterClauses. rewrite H.
  apply in_or_app. right. now left.
Qed.

Lemma quoted_is_truthy (s : string) :
  (0 < OData.count_quotes s)%nat -> Js.truthy s = true.
Proof. destruct s; simpl; [lia | reflexivity]. Qed.

(** C5. When the search text holds one quote or more, the search clause
    is one of the clauses joined into [$filter]; in it the text stands with
    each quote doubled (the escaped text has twice as many quotes), and a
    literal opened right before the escaped text is closed by the quote the
    builder writes behind it and by no quote of the text: it denotes the
    search text itself, so no quote of the text splits the clause. *)
Theorem search_quotes_doubled (sc : SortConfig) (searchTerm : string)
    (category status : option Z) :
  (0 < OData.count_quotes searchTerm)%nat ->
  let escaped := Js.replace_quotes searchTerm in
  let clauses := filterClauses searchTerm category status in
  UrlParams.get "$filter" (queryParams sc searchTerm category status)
    = Some (Js.join " and " clauses)
  /\ In ("(contains(name, '" ++ escaped ++ "') or contains(uniquename, '"
           ++ escaped ++ "'))") clauses
  /\ OData.count_quotes escaped = (2 * OData.count_quotes searchTerm)%nat
  /\ forall rest, OData.starts_with_quote rest = false ->
       OData.read_literal (escaped ++ String Js.quote rest)
       = Some (searchTerm, rest).
Proof.
  intros Hq escaped clauses.
  pose proof (quoted_is_truthy _ Hq) as Ht.
  pose proof (in_search_clause searchTerm category status Ht) as Hin.
  repeat split.
  - rewrite filter_param. fold clauses. fold clauses in Hin.
    destruct clauses; [destruct Hin | reflexivity].
  - exact Hin.
  - apply count_quotes_replace.
  - intros rest Hrest. now apply read_literal_replace.
Qed.

Lemma search_quotes_doubled_witness :
  UrlParams.get "$filter"
    (queryParams {| key := None; direction := descending |} "it's" (Some 2) (Some 1))
  = Some "statecode eq 1 and (contains(name, 'it''s') or contains(uniquename, 'it''s')) and category eq 2"
  /\ OData.read_literal "it''s') or contains(uniquename, 'it''s'))"
     = Some ("it's", ") or contains(uniquename, 'it''s'))").
Proof.
  assert (Hq : (0 < OData.count_quotes "it's")%nat) by (vm_compute; lia).
  destruct (search_quotes_doubled {| key := None; direction := descending |}
              "it's" (Some 2) (Some 1) Hq) as (Hf & _ & _ & Hr).
  split.
  - exact Hf.
  - exact (Hr ") or contains(uniquename, 'it''s'))" eq_refl).
Defined.

(** C6. With no category, and with the category -1, no clause of the
    filter starts with [category eq]: the clauses are those built without
    a category, and [$filter] is their conjunction (or is absent when
    there is none). *)
Theorem no_category_clause (sc : SortConfig) (searchTerm : string)
    (category status : option Z) :
  category = None \/ category = Some (-1) ->
  Forall (fun clause => String.prefix "category eq" clause = false)
    (filterClauses searchTerm category status)
  /\ filterClauses searchTerm category status
     = ((match status with Some st => [statusClause st] | None => [] end)
        ++ (if Js.truthy searchTerm then [searchClause searchTerm] else []))%list
  /\ UrlParams.get "$filter" (queryParams sc searchTerm category status)
     = match filterClauses searchTerm None status with
       | [] => None
       | clauses => Some (Js.join " and " clauses)
       end.
Proof.
  intros Hc.
  assert (Heq : filterClauses searchTerm category status
                = filterClauses searchTerm None status)
    by (destruct Hc; subst; reflexivity).
  split; [|split].
  - rewrite Heq. unfold filterClauses.
    destruct status as [st|], (Js.truthy searchTerm); simpl;
      repeat constructor.
  - rewrite Heq. unfold filterClauses. now rewrite app_nil_r.
  - rewrite filter_param. now rewrite Heq.
Qed.

Lemma no_category_clause_witness :
  UrlParams.get "$filter"
    (queryParams {| key := None; direction := descending |} "flow" (Some (-1)) (Some 0))
  = Some "statecode eq 0 and (contains(name, 'flow') or contains(uniquename, 'flow'))".
Proof.
  destruct (no_category_clause {| key := None; direction := descending |}
              "flow" (Some (-1)) (Some 0) (or_intror eq_refl)) as (_ & _ & H).
  exact H.
Defined.

(** C7, as the code has it. [$orderby] is [modifiedon desc] when the sort
    field is null; for a field that is not the empty string it is the field
    followed by [asc] or [desc] after the direction. *)
Theorem orderby_cases (searchTerm : string) (category status : option Z)
    (d : Direction) (field : string) :
  field <> "" ->
  UrlParams.get "$orderby"
    (queryParams {| key := None; direction := d |} searchTerm category status)
  = Some "modifiedon desc"
  /\ UrlParams.get "$orderby"
       (queryParams {| key := Some field; direction := d |} searchTerm category status)
     = Some (field ++ match d with
                      | ascending => " asc"
                      | descending => " desc"
                      end).
Proof.
  intros Hf. rewrite !orderby_param. split; [reflexivity|].
  destruct field as [|c field]; [congruence|].
  destruct d; reflexivity.
Qed.

Lemma orderby_cases_witness :
  UrlParams.get "$orderby"
    (queryParams {| key := Some "name"; direction := ascending |} "" None None)
  = Some "name asc".
Proof.
  refine (proj2 (orderby_cases "" None None ascending "name" _)).
  discriminate.
Defined.

(** C7 as stated fails for the field that is the empty string: it is not
    null, and the builder orders by the default. *)
Lemma orderby_empty_field :
  UrlParams.get "$orderby"
    (queryParams {| key := Some ""; direction := ascending |} "" None None)
  = Some "modifiedon desc"
  /\ UrlParams.get "$orderby"
       (queryParams {| key := Some ""; direction := ascending |} "" None None)
     <> Some ("" ++ " asc").
Proof. split; [reflexivity | discriminate]. Qed.

(* ================================================================== *)
(** * Properties of the credential parsing *)
(* ================================================================== *)

Lemma getAuthToken_ok (srv : Server) (response : TokenResponse) :
  post_token srv = Ok response -> tok_ok response = true ->
  getAuthToken srv = Ok (tokenOfBody (tok_text response)).
Proof. intros H1 H2. unfold getAuthToken. now rewrite H1, H2. Qed.

Lemma nonempty_string_some (t : Js.text) :
  Js.truthy_text t = true ->
  Json.nonempty_string (Some (Json.JString t)) = Some t.
Proof. intros H. simpl. now rewrite H. Qed.

(** C8, as the code has it. For a successful response the token is the
    non-empty string under [token] of a JSON object, else the non-empty
    string under [accessToken]; a body that is no JSON is trimmed; and a
    body of any other shape is trimmed too: no successful response is an
    error. *)
Theorem token_of_successful_response (srv : Server) (response : TokenResponse) :
  post_token srv = Ok response -> tok_ok response = true ->
  let body := tok_text response in
  (exists token, getAuthToken srv = Ok token)
  /\ (Json.parse body = None -> getAuthToken srv = Ok (Js.trim body))
  /\ (forall members (t : Js.text),
        Json.parse body = Some (Json.JObject members) ->
        Json.property "token" members = Some (Json.JString t) ->
        Js.truthy_text t = true ->
        getAuthToken srv = Ok t)
  /\ (forall members (a : Js.text),
        Json.parse body = Some (Json.JObject members) ->
        Json.nonempty_string (Json.property "token" members) = None ->
        Json.property "accessToken" members = Some (Json.JString a) ->
        Js.truthy_text a = true ->
        getAuthToken srv = Ok a)
  /\ (forall data,
        Json.parse body = Some data ->
        Json.nonempty_string (Json.get data "token") = None ->
        Json.nonempty_string (Json.get data "accessToken") = None ->
        getAuthToken srv = Ok (Js.trim body)).
Proof.
  intros Hsrv Hok body.
  rewrite (getAuthToken_ok srv response Hsrv Hok). fold body.
  unfold tokenOfBody.
  split; [eauto|]. split; [|split; [|split]].
  - intros Hp. now rewrite Hp.
  - intros members t Hp Ht Hne. rewrite Hp. simpl.
    now rewrite Ht, (nonempty_string_some t Hne).
  - intros members a Hp Ht Ha Hne. rewrite Hp. simpl.
    now rewrite Ht, Ha, (nonempty_string_some a Hne).
  - intros data Hp Ht Ha. rewrite Hp.
    destruct (Json.is_object data); [|reflexivity].
    now rewrite Ht, Ha.
Qed.

Lemma token_of_successful_response_witness :
  getAuthToken
    (credentialServer ("{" ++ Json.quoted "accessToken" ++ ":" ++ Json.quoted "xyz" ++ "}"))
  = Ok "xyz".
Proof.
  refine (proj1 (proj2 (proj2 (proj2
            (token_of_successful_response
               (credentialServer
                  ("{" ++ Json.quoted "accessToken" ++ ":" ++ Json.quoted "xyz" ++ "}"))
               _ eq_refl eq_refl))))
            [(Js.Narrow "accessToken", Json.JString (Js.Narrow "xyz"))]
            (Js.Narrow "xyz") _ _ _ _).
  - vm_compute. reflexivity.
  - reflexivity.
  - reflexivity.
  - reflexivity.
Defined.

(** The three bodies that the specification lists. *)
Example token_plain_text :
  getAuthToken (credentialServer ("abc123" ++ String (ascii_of_nat 10) ""))
  = Ok "abc123".
Proof. vm_compute. reflexivity. Qed.

Example token_field_token :
  getAuthToken
    (credentialServer ("{" ++ Json.quoted "token" ++ ":" ++ Json.quoted "t1" ++ "}"))
  = Ok "t1".
Proof. vm_compute. reflexivity. Qed.

Example token_first_match :
  getAuthToken
    (credentialServer
       ("{" ++ Json.quoted "accessToken" ++ ":" ++ Json.quoted "a2" ++ ","
            ++ Json.quoted "token" ++ ":" ++ Json.quoted "t1" ++ "}"))
  = Ok "t1".
Proof. vm_compute. reflexivity. Qed.

(** An escape of a code unit of 256 or above does not keep a body from
    being JSON: the token beside it is found, and a token that holds such
    a code unit is returned as it is. *)
Example token_beside_wide_escape :
  getAuthToken
    (credentialServer
       ("{" ++ Json.quoted "note" ++ ":"
            ++ Json.quoted (String Json.backslash "u20ac") ++ ","
            ++ Json.quoted "token" ++ ":" ++ Json.quoted "t1" ++ "}"))
  = Ok "t1"
  /\ getAuthToken
       (credentialServer
          ("{" ++ Json.quoted "token" ++ ":"
               ++ Json.quoted (String Json.backslash "u20acA") ++ "}"))
     = Ok (Js.Wide [8364%N; 65%N]).
Proof. split; vm_compute; reflexivity. Qed.

(** C8 as stated fails on a JSON object that has neither field: the body
    itself is returned as the token, and no error is raised. *)
Lemma other_shape_is_no_error :
  let body := "{" ++ Json.quoted "jwt" ++ ":" ++ Json.quoted "abc" ++ "}" in
  Json.parse body
  = Some (Json.JObject [(Js.Narrow "jwt", Json.JString (Js.Narrow "abc"))])
  /\ getAuthToken (credentialServer body) = Ok body
  /\ forall e, getAuthToken (credentialServer body) <> Throw e.
Proof.
  cbv zeta. split; [|split].
  - vm_compute. reflexivity.
  - vm_compute. reflexivity.
  - intros e. vm_compute. discriminate.
Qed.

(* ================================================================== *)
(** * Properties of the pagination controller *)
(* ================================================================== *)

(** ** Lists *)

Lemma nth_error_last {A : Type} (l : list A) (x : A) :
  nth_error (l ++ [x]) (List.length l) = Some x.
Proof. induction l as [|y l IH]; simpl; auto. Qed.

Lemma remove_at_last {A : Type} (l : list A) (x : A) :
  remove_at (List.length l) (l ++ [x]) = l.
Proof. induction l as [|y l IH]; simpl; [reflexivity | now rewrite IH]. Qed.

Lemma remove_at_forall {A : Type} (P : A -> Prop) (i : nat) (l : list A) :
  Forall P l -> Forall P (remove_at i l).
Proof.
  intros H. revert i. induction H as [|x l Hx Hl IH]; intros [|i]; simpl;
    try constructor; auto.
Qed.

Lemma last_entry_snoc (l : list string) (x : string) :
  last_entry (l ++ [x]) = Some x.
Proof.
  unfold last_entry. destruct (l ++ [x])%list eqn:E.
  - now destruct l.
  - rewrite <- E, length_app. simpl.
    replace (List.length l + 1 - 1)%nat with (List.length l) by lia.
    apply nth_error_last.
Qed.

Lemma last_entry_some (l : list string) (x : string) :
  last_entry l = Some x -> exists front, l = (front ++ [x])%list.
Proof.
  destruct l as [|y l] using rev_ind; [discriminate|].
  rewrite last_entry_snoc. intros [= ->]. now exists l.
Qed.

Lemma removelast_some (l : list string) (x : string) :
  last_entry (removelast l) = Some x ->
  exists front cur, l = (front ++ [x; cur])%list
                    /\ removelast l = (front ++ [x])%list.
Proof.
  destruct l as [|cur l _] using rev_ind; [discriminate|].
  rewrite removelast_last. intros H.
  destruct (last_entry_some _ _ H) as [front ->].
  exists front, cur. now rewrite <- app_assoc.
Qed.

(** ** The two halves of [fetchPageData] *)

Lemma settle_started (w : World) (s : AppState) (c : Call) (srv : Server) :
  settle (List.length (inflight w)) srv
    {| ui := s; inflight := (inflight w ++ [c])%list |}
  = {| ui := fetchPageData_settle (c_isNewQuery c) (perform srv c) s;
       inflight := inflight w |}.
Proof.
  unfold settle. simpl. now rewrite nth_error_last, remove_at_last.
Qed.

Lemma settle_failed (isNewQuery : bool) (outcome : Result WorkflowsResponse)
    (e : Thrown) (s : AppState) :
  outcome = Throw e ->
  exists message,
    fetchPageData_settle isNewQuery outcome s
    = setIsLoading false (setError (Some message) s).
Proof.
  intros ->. destruct e as [message|]; unfold fetchPageData_settle;
    eexists; reflexivity.
Qed.

Lemma fails_throw (srv : Server) (c : Call) :
  fails srv c = true -> exists e, perform srv c = Throw e.
Proof. unfold fails. destruct (perform srv c); [discriminate | eauto]. Qed.

(** A call that starts from the render [s] and fails: of what the start
    and the failure set, the message and the cleared flag remain. *)
Lemma start_then_fail (w : World) (s : AppState) (url : option string)
    (isNewQuery : bool) (srv : Server) :
  fails srv (callOf s url isNewQuery) = true ->
  exists message,
    settle (List.length (inflight w)) srv
      (fetchPageData_start url isNewQuery (with_ui s w))
    = {| ui := setIsLoading false (setError (Some message) s);
         inflight := inflight w |}.
Proof.
  intros Hf. destruct (fails_throw _ _ Hf) as [e He].
  unfold fetchPageData_start. cbn [ui inflight with_ui].
  rewrite settle_started. cbn [c_isNewQuery callOf].
  change (perform srv _) with (perform srv (callOf s url isNewQuery)).
  rewrite He. destruct e as [message|]; eexists; reflexivity.
Qed.

Lemma fetchUrl_truthy (sc : SortConfig) (searchTerm : string)
    (category status : option Z) (url : option string) :
  Js.truthy (fetchUrl sc searchTerm category status url) = true.
Proof.
  unfold fetchUrl. destruct url as [u|]; [|reflexivity].
  destruct (Js.truthy u) eqn:E; [assumption | reflexivity].
Qed.

Lemma perform_ok (srv : Server) (c : Call) (data : WorkflowsResponse) :
  perform srv c = Ok data ->
  requestUrl data
  = fetchUrl (c_sortConfig c) (search (c_filters c)) (category (c_filters c))
      (status (c_filters c)) (c_url c)
  /\ (r_nextLink data = None \/ Js.truthy_opt (r_nextLink data) = true).
Proof.
  unfold perform, fetchWorkflows.
  destruct (getAuthToken srv) as [token|]; [|discriminate].
  destruct (getWorkflowsFromUrl srv _ token) as [page|] eqn:E; [|discriminate].
  intros [= <-]. simpl. split; [reflexivity|].
  unfold getWorkflowsFromUrl in E.
  destruct (get_data srv _ token) as [response|]; [|discriminate].
  destruct (negb (dat_ok response)); [discriminate|].
  destruct (dat_json response) as [body|]; [|discriminate].
  injection E as <-. simpl.
  destruct (Js.truthy_opt (odata_nextLink body)) eqn:T; auto.
Qed.

(** ** The handlers, when their guard lets the trigger through *)

Lemma handleNextPage_accepted (w : World) (link : string) :
  nextLink (ui w) = Some link -> Js.truthy link = true ->
  isLoading (ui w) = false ->
  handleNextPage w
  = fetchPageData_start (Some link) false
      (with_ui (setPageUrlHistory (pageUrlHistory (ui w) ++ [link])
                  (setCurrentPage (currentPage (ui w) + 1) (ui w))) w).
Proof.
  intros Hn Ht Hl. unfold handleNextPage. rewrite Hn, Hl. simpl.
  now rewrite Ht.
Qed.

Lemma handlePrevPage_accepted (w : World) (prevPageUrl : string) :
  1 < currentPage (ui w) -> isLoading (ui w) = false ->
  last_entry (removelast (pageUrlHistory (ui w))) = Some prevPageUrl ->
  Js.truthy prevPageUrl = true ->
  handlePrevPage w
  = fetchPageData_start (Some prevPageUrl) false
      (with_ui (setPageUrlHistory (removelast (pageUrlHistory (ui w)))
                  (setCurrentPage (currentPage (ui w) - 1) (ui w))) w).
Proof.
  intros Hp Hl He Ht. unfold handlePrevPage.
  replace (currentPage (ui w) <=? 1) with false by (symmetry; apply Z.leb_gt; lia).
  rewrite Hl, He, Ht. reflexivity.
Qed.

(** ** What every reachable state satisfies *)

Lemma consistent_step (e : Event) (w : World) :
  consistent (ui w) /\ 1 <= currentPage (ui w) ->
  consistent (ui (step e w)) /\ 1 <= currentPage (ui (step e w)).
Proof.
  unfold consistent. intros [Hc Hp].
  destruct e as [text|c|c| |k| | |i srv]; simpl; auto.
  - (* next page *)
    unfold handleNextPage.
    destruct (negb (Js.truthy_opt (nextLink (ui w))) || isLoading (ui w));
      [auto|].
    destruct (nextLink (ui w)) as [link|]; [|auto]. simpl.
    rewrite length_app. simpl. lia.
  - (* previous page *)
    unfold handlePrevPage.
    destruct ((currentPage (ui w) <=? 1) || isLoading (ui w)) eqn:G; [auto|].
    apply orb_false_elim in G as [G _]. apply Z.leb_gt in G.
    destruct (last_entry (removelast (pageUrlHistory (ui w)))) as [u|] eqn:E;
      [|auto].
    destruct (Js.truthy u); [|auto]. simpl.
    destruct (removelast_some _ _ E) as (front & cur & Hl & Hr).
    rewrite Hr. rewrite Hl in Hc. rewrite length_app in *. simpl in *. lia.
  - (* a call is settled *)
    unfold settle. destruct (nth_error (inflight w) i) as [c|]; [|auto].
    simpl. unfold fetchPageData_settle.
    destruct (perform srv c) as [data|[message|]]; simpl; auto.
    destruct (c_isNewQuery c); simpl; auto. lia.
Qed.

Lemma wellformed_mount : wellformed mount.
Proof.
  unfold wellformed. simpl. repeat split; auto.
  - right. repeat split; auto.
  - discriminate.
Qed.

Lemma wellformed_start (url : option string) (isNewQuery : bool)
    (s : AppState) (w : World) :
  Forall (fun u => Js.truthy u = true) (pageUrlHistory s) ->
  (nextLink s = None \/ Js.truthy_opt (nextLink s) = true) ->
  ((consistent s /\ 1 <= currentPage s)
   \/ (pageUrlHistory s = [] /\ currentPage s = 1 /\ nextLink s = None
       /\ Forall (fun c => c_isNewQuery c = true) (inflight w)
       /\ isNewQuery = true)) ->
  wellformed (fetchPageData_start url isNewQuery (with_ui s w)).
Proof.
  intros Hh Hn Hc. unfold wellformed. simpl. repeat split; auto.
  - destruct Hc as [Hc|(H1 & H2 & H3 & H4 & H5)]; [now left | right].
    repeat split; auto. apply Forall_app. split; [assumption|].
    constructor; [assumption | constructor].
  - intros _ H. now destruct (inflight w).
Qed.

Lemma wellformed_step (e : Event) (w : World) :
  wellformed w -> wellformed (step e w).
Proof.
  intros Hw. pose proof Hw as (Hh & Hn & Hc & Hl).
  destruct e as [text|c|c| |k| | |i srv]; simpl.
  - unfold wellformed; simpl; auto.
  - unfold wellformed; simpl; auto.
  - unfold wellformed; simpl; auto.
  - unfold handleApplyFilters, newQueryEffect.
    apply wellformed_start; simpl; auto.
    destruct Hc as [Hc|(H1 & H2 & H3 & H4)]; [now left | right; auto].
  - unfold handleSort, newQueryEffect.
    apply wellformed_start; simpl; auto.
    destruct Hc as [Hc|(H1 & H2 & H3 & H4)]; [now left | right; auto].
  - unfold handleNextPage.
    destruct (negb (Js.truthy_opt (nextLink (ui w))) || isLoading (ui w)) eqn:G;
      [exact Hw|].
    apply orb_false_elim in G as [G _]. apply negb_false_iff in G.
    destruct (nextLink (ui w)) as [link|] eqn:En; [|exact Hw].
    apply wellformed_start; simpl; [| rewrite En; auto |].
    + apply Forall_app. split; [assumption|]. constructor; [exact G | constructor].
    + left. destruct Hc as [[Hc Hp]|(H1 & H2 & H3 & H4)]; [|discriminate].
      unfold consistent in *. simpl. rewrite length_app. simpl. lia.
  - unfold handlePrevPage.
    destruct ((currentPage (ui w) <=? 1) || isLoading (ui w)) eqn:G;
      [exact Hw|].
    apply orb_false_elim in G as [G _]. apply Z.leb_gt in G.
    destruct (last_entry (removelast (pageUrlHistory (ui w)))) as [u|] eqn:E;
      [|exact Hw].
    destruct (Js.truthy u) eqn:Tu; [|exact Hw].
    destruct (removelast_some _ _ E) as (front & cur & Hlist & Hr).
    apply wellformed_start; simpl; auto.
    + rewrite Hr. rewrite Hlist in Hh.
      apply Forall_app in Hh as [Hf Hx]. apply Forall_app. split; [assumption|].
      constructor; [exact Tu | constructor].
    + left. destruct Hc as [[Hc Hp]|(H1 & H2 & H3 & H4)]; [|lia].
      unfold consistent in *. simpl. rewrite Hr. rewrite Hlist in Hc.
      rewrite length_app in *. simpl in *. lia.
  - unfold settle. destruct (nth_error (inflight w) i) as [c|] eqn:Ec;
      [|exact Hw].
    assert (Hin : In c (inflight w)) by (eapply nth_error_In; eauto).
    unfold wellformed. simpl. unfold fetchPageData_settle.
    destruct (perform srv c) as [data|[message|]] eqn:Ep; simpl.
    + destruct (perform_ok _ _ _ Ep) as [Hu Hnext].
      destruct (c_isNewQuery c) eqn:Eq; simpl.
      * repeat split; auto.
        -- constructor; [|constructor]. rewrite Hu. apply fetchUrl_truthy.
        -- left. unfold consistent. simpl. lia.
        -- discriminate.
      * repeat split; auto; [|discriminate].
        destruct Hc as [Hc|(H1 & H2 & H3 & H4)]; [now left|].
        rewrite Forall_forall in H4. specialize (H4 c Hin). congruence.
    + repeat split; auto; [|discriminate].
      destruct Hc as [Hc|(H1 & H2 & H3 & H4)]; [now left | right].
      repeat split; auto. now apply remove_at_forall.
    + repeat split; auto; [|discriminate].
      destruct Hc as [Hc|(H1 & H2 & H3 & H4)]; [now left | right].
      repeat split; auto. now apply remove_at_forall.
Qed.

Lemma reachable_wellformed (w : World) : reachable w -> wellformed w.
Proof.
  induction 1 as [|e w _ IH]; [apply wellformed_mount | now apply wellformed_step].
Qed.

Lemma reachable_run (events : list Event) (w : World) :
  reachable w -> reachable (run events w).
Proof.
  revert w. induction events as [|e events IH]; intros w H; simpl; [assumption|].
  apply IH. now constructor.
Qed.

Lemma reachable_page1 : reachable page1_world.
Proof. apply reachable_run, reach_mount. Qed.

Lemma reachable_page2 : reachable page2_world.
Proof. apply reachable_run, reachable_page1. Qed.

Lemma reachable_overlap : reachable overlap_world.
Proof. apply reachable_run, reach_mount. Qed.

(** In a reachable state a forward cursor that is not null is not empty,
    and nothing is in flight only when the loading flag is clear. *)
Lemma reachable_nextLink (w : World) (link : string) :
  reachable w -> nextLink (ui w) = Some link -> Js.truthy link = true.
Proof.
  intros Hr Hn. destruct (reachable_wellformed w Hr) as (_ & [H|H] & _).
  - congruence.
  - now rewrite Hn in H.
Qed.

Lemma reachable_idle (w : World) :
  reachable w -> inflight w = [] -> isLoading (ui w) = false.
Proof.
  intros Hr Hi. destruct (reachable_wellformed w Hr) as (_ & _ & _ & H).
  destruct (isLoading (ui w)); [now destruct H | reflexivity].
Qed.

(** ** Single flight *)

Lemma single_flight_mount : single_flight mount.
Proof. right. eexists. split; reflexivity. Qed.

(** The discipline is kept by every event, provided a new query is only
    started while nothing is in flight. *)
Lemma single_flight_step (e : Event) (w : World) :
  single_flight w ->
  (is_new_query e = true -> inflight w = []) ->
  single_flight (step e w).
Proof.
  intros Hs Hq.
  destruct e as [text|c|c| |k| | |i srv]; simpl; try exact Hs.
  - right. unfold handleApplyFilters, newQueryEffect, fetchPageData_start.
    simpl. rewrite (Hq eq_refl). eexists. split; reflexivity.
  - right. unfold handleSort, newQueryEffect, fetchPageData_start.
    simpl. rewrite (Hq eq_refl). eexists. split; reflexivity.
  - unfold handleNextPage.
    destruct Hs as [[Hi Hl]|(c & Hi & Hl)]; rewrite Hl.
    + rewrite orb_false_r.
      destruct (negb (Js.truthy_opt (nextLink (ui w)))); [now left|].
      destruct (nextLink (ui w)); [|now left].
      right. unfold fetchPageData_start. simpl. rewrite Hi.
      eexists. split; reflexivity.
    + rewrite orb_true_r. right. eauto.
  - unfold handlePrevPage.
    destruct Hs as [[Hi Hl]|(c & Hi & Hl)]; rewrite Hl.
    + rewrite orb_false_r.
      destruct (currentPage (ui w) <=? 1); [now left|].
      destruct (last_entry (removelast (pageUrlHistory (ui w)))) as [u|];
        [|now left].
      destruct (Js.truthy u); [|now left].
      right. unfold fetchPageData_start. simpl. rewrite Hi.
      eexists. split; reflexivity.
    + rewrite orb_true_r. right. eauto.
  - unfold settle.
    destruct Hs as [[Hi Hl]|(c & Hi & Hl)]; rewrite Hi.
    + destruct i; simpl; left; rewrite Hi; auto.
    + destruct i as [|[|i]]; simpl.
      * left. split; reflexivity.
      * right. exists c. rewrite Hi. auto.
      * right. exists c. rewrite Hi. auto.
Qed.

Lemma single_flight_loading (w : World) :
  single_flight w -> inflight w <> [] -> isLoading (ui w) = true.
Proof. intros [[Hi _]|(c & _ & Hl)] H; [contradiction | assumption]. Qed.

(** ** Next page *)

(** C1, as the code has it. When a next-page trigger is let through (the
    forward cursor is there and not empty, the loading flag is clear) and
    its fetch fails, the forward cursor is the one from before the trigger;
    the page number stays one higher and the history keeps the cursor that
    the trigger appended. The records and the total stay, and the call is
    no longer in flight. *)
Theorem failed_next_stays_advanced (w : World) (srv : Server) (link : string) :
  nextLink (ui w) = Some link -> Js.truthy link = true ->
  isLoading (ui w) = false ->
  fails srv (callOf (ui w) (Some link) false) = true ->
  let w' := step (Settle (List.length (inflight w)) srv) (step NextPage w) in
  nextLink (ui w') = nextLink (ui w)
  /\ currentPage (ui w') = currentPage (ui w) + 1
  /\ pageUrlHistory (ui w') = (pageUrlHistory (ui w) ++ [link])%list
  /\ workflows (ui w') = workflows (ui w)
  /\ totalCount (ui w') = totalCount (ui w)
  /\ inflight w' = inflight w.
Proof.
  intros Hn Ht Hl Hf. cbv zeta. unfold step.
  rewrite (handleNextPage_accepted w link Hn Ht Hl).
  destruct (start_then_fail w
              (setPageUrlHistory (pageUrlHistory (ui w) ++ [link])
                 (setCurrentPage (currentPage (ui w) + 1) (ui w)))
              (Some link) false srv Hf) as [message ->].
  repeat split.
Qed.

Lemma failed_next_stays_advanced_witness :
  currentPage (ui (run [NextPage; Settle 0 failing] page1_world)) = 1 + 1
  /\ nextLink (ui (run [NextPage; Settle 0 failing] page1_world)) = Some "B".
Proof.
  destruct (failed_next_stays_advanced page1_world failing "B"
              eq_refl eq_refl eq_refl eq_refl) as (Hn & Hp & _).
  split; [exact Hp | exact Hn].
Defined.

(** C1 as stated fails: page 1 is shown, the next-page trigger is let
    through, its fetch fails, and the page number and the history are not
    those from before the trigger. *)
Lemma failed_next_moves_page :
  let pre := page1_world in
  let post := run [NextPage; Settle 0 failing] pre in
  nextLink (ui pre) = Some "B" /\ isLoading (ui pre) = false
  /\ inflight pre = []
  /\ error (ui post)
     = Some "Failed to fetch data: HTTP error 500 while fetching workflows.. Please check console for details."
  /\ currentPage (ui pre) = 1 /\ currentPage (ui post) = 2
  /\ List.length (pageUrlHistory (ui pre)) = 1%nat
  /\ List.length (pageUrlHistory (ui post)) = 2%nat.
Proof. vm_compute. repeat split; reflexivity. Qed.

(** ** Previous page *)

(** C2, as the code has it. From a reachable state with the loading flag
    clear and a page number above 1, a previous-page trigger whose fetch
    fails leaves the history without its last entry and the page number
    one lower: the removal is kept. The history keeps one entry at least,
    it still has one entry per page, and the forward cursor, the records
    and the total are those from before the trigger. *)
Theorem failed_prev_stays_popped (w : World) (srv : Server)
    (prevPageUrl : string) :
  reachable w -> isLoading (ui w) = false -> 1 < currentPage (ui w) ->
  last_entry (removelast (pageUrlHistory (ui w))) = Some prevPageUrl ->
  fails srv (callOf (ui w) (Some prevPageUrl) false) = true ->
  let w' := step (Settle (List.length (inflight w)) srv) (step PrevPage w) in
  currentPage (ui w') = currentPage (ui w) - 1
  /\ pageUrlHistory (ui w') = removelast (pageUrlHistory (ui w))
  /\ (1 <= List.length (pageUrlHistory (ui w')))%nat
  /\ consistent (ui w')
  /\ nextLink (ui w') = nextLink (ui w)
  /\ workflows (ui w') = workflows (ui w)
  /\ totalCount (ui w') = totalCount (ui w)
  /\ inflight w' = inflight w.
Proof.
  intros Hr Hl Hp He Hf.
  destruct (reachable_wellformed w Hr) as (Hh & _ & Hc & _).
  destruct (removelast_some _ _ He) as (front & cur & Hlist & Hrem).
  assert (Ht : Js.truthy prevPageUrl = true).
  { rewrite Hlist in Hh. apply Forall_app in Hh as [_ Hh].
    now inversion Hh. }
  destruct Hc as [[Hc _]|(_ & Hone & _)]; [|lia].
  cbv zeta. unfold step.
  rewrite (handlePrevPage_accepted w prevPageUrl Hp Hl He Ht).
  destruct (start_then_fail w
              (setPageUrlHistory (removelast (pageUrlHistory (ui w)))
                 (setCurrentPage (currentPage (ui w) - 1) (ui w)))
              (Some prevPageUrl) false srv Hf) as [message ->].
  unfold consistent in *. cbn [ui inflight pageUrlHistory currentPage nextLink
    workflows totalCount setIsLoading setError setPageUrlHistory setCurrentPage].
  rewrite Hrem. rewrite Hlist in Hc. rewrite length_app in *. simpl in *.
  repeat split; lia.
Qed.

Lemma failed_prev_stays_popped_witness :
  currentPage (ui (run [PrevPage; Settle 0 failing] page2_world)) = 2 - 1
  /\ (1 <= List.length
             (pageUrlHistory (ui (run [PrevPage; Settle 0 failing] page2_world))))%nat.
Proof.
  destruct (failed_prev_stays_popped page2_world failing
              "https://wecare-ii.crm5.dynamics.com/api/data/v9.2/workflows?%24top=50&%24count=true&%24orderby=modifiedon+desc"
              reachable_page2 eq_refl eq_refl eq_refl eq_refl)
    as (Hp & _ & Hlen & _).
  split; [exact Hp | exact Hlen].
Defined.

(** C2 as stated fails: page 2 is shown with a history of two entries, the
    previous-page trigger is let through, its fetch fails, and the state is
    not the one from before the trigger: one entry and page 1. *)
Lemma failed_prev_not_rolled_back :
  let pre := page2_world in
  let post := run [PrevPage; Settle 0 failing] pre in
  isLoading (ui pre) = false /\ inflight pre = []
  /\ error (ui post)
     = Some "Failed to fetch data: HTTP error 500 while fetching workflows.. Please check console for details."
  /\ currentPage (ui pre) = 2 /\ currentPage (ui post) = 1
  /\ List.length (pageUrlHistory (ui pre)) = 2%nat
  /\ List.length (pageUrlHistory (ui post)) = 1%nat
  /\ ui post <> ui pre.
Proof.
  vm_compute. repeat split; try reflexivity.
  intros H. discriminate H.
Qed.

(** ** New query *)

(** A new query that starts from the render [s] and is answered. *)
Lemma start_then_answer (w : World) (s : AppState) (srv : Server)
    (data : WorkflowsResponse) :
  perform srv (callOf s None true) = Ok data ->
  let w2 := settle (List.length (inflight w)) srv
              (fetchPageData_start None true (with_ui s w)) in
  currentPage (ui w2) = 1
  /\ pageUrlHistory (ui w2) = [requestUrl data]
  /\ requestUrl data
     = DATAVERSE_URL ++ "?"
         ++ UrlParams.toString
              (queryParams (sortConfig s) (search (appliedFilters s))
                 (category (appliedFilters s)) (status (appliedFilters s)))
  /\ inflight w2 = inflight w.
Proof.
  intros Hok. cbv zeta.
  unfold fetchPageData_start. cbn [ui inflight with_ui].
  rewrite settle_started. cbn [c_isNewQuery callOf ui inflight].
  change (perform srv _) with (perform srv (callOf s None true)).
  rewrite Hok. destruct (perform_ok _ _ _ Hok) as [Hurl _].
  repeat split. exact Hurl.
Qed.

(** C3. Applying the filters, and choosing a sort, sends a query with no
    cursor, for the filters and the sort that the trigger has just set;
    whatever the page number and the history were, when that query is
    answered the page number is 1 and the history is the one locator that
    was requested, the locator built from that sort and those filters. *)
Theorem new_query_resets_pagination (w : World) (e : Event) (srv : Server)
    (data : WorkflowsResponse) :
  is_new_query e = true ->
  let w1 := step e w in
  let call := callOf (ui w1) None true in
  let filters := appliedFilters (ui w1) in
  inflight w1 = (inflight w ++ [call])%list
  /\ c_url call = None
  /\ (e = ApplyFilters ->
      filters = {| search := searchTerm (ui w);
                   category := selectedCategory (ui w);
                   status := selectedStatus (ui w) |})
  /\ (perform srv call = Ok data ->
      let w2 := step (Settle (List.length (inflight w)) srv) w1 in
      currentPage (ui w2) = 1
      /\ pageUrlHistory (ui w2) = [requestUrl data]
      /\ requestUrl data
         = DATAVERSE_URL ++ "?"
             ++ UrlParams.toString
                  (queryParams (sortConfig (ui w1)) (search filters)
                     (category filters) (status filters))
      /\ inflight w2 = inflight w).
Proof.
  intros He. destruct e as [text|c|c| |k| | |i srv']; try discriminate;
    cbv zeta.
  - split; [reflexivity|]. split; [reflexivity|]. split; [reflexivity|].
    intros Hok. exact (start_then_answer w _ srv data Hok).
  - split; [reflexivity|]. split; [reflexivity|]. split; [discriminate|].
    intros Hok. exact (start_then_answer w _ srv data Hok).
Qed.

Lemma new_query_resets_pagination_witness :
  currentPage
    (ui (run [ApplyFilters; Settle 0 (serving [] None 7)] page2_world)) = 1
  /\ pageUrlHistory
       (ui (run [ApplyFilters; Settle 0 (serving [] None 7)] page2_world))
     = ["https://wecare-ii.crm5.dynamics.com/api/data/v9.2/workflows?%24top=50&%24count=true&%24orderby=modifiedon+desc"].
Proof.
  destruct (new_query_resets_pagination page2_world ApplyFilters
              (serving [] None 7)
              {| r_workflows := []; r_nextLink := None; r_totalCount := 7;
                 requestUrl := "https://wecare-ii.crm5.dynamics.com/api/data/v9.2/workflows?%24top=50&%24count=true&%24orderby=modifiedon+desc" |}
              eq_refl) as (_ & _ & _ & H).
  destruct (H eq_refl) as (Hp & Hh & _).
  split; [exact Hp | exact Hh].
Defined.

(** ** The pagination invariant *)

(** C4. Each transition of the controller keeps the invariant: when the
    history has one entry per page before an event (a draft edit, a new
    query, a next-page or previous-page trigger, a call settled with
    success or with failure), it has one entry per page after it. *)
Theorem consistent_preserved (e : Event) (w : World) :
  consistent (ui w) -> consistent (ui (step e w)).
Proof.
  unfold consistent. intros Hc.
  destruct e as [text|c|c| |k| | |i srv]; simpl; auto.
  - unfold handleNextPage.
    destruct (negb (Js.truthy_opt (nextLink (ui w))) || isLoading (ui w));
      [auto|].
    destruct (nextLink (ui w)) as [link|]; [|auto]. simpl.
    rewrite length_app. simpl. lia.
  - unfold handlePrevPage.
    destruct ((currentPage (ui w) <=? 1) || isLoading (ui w)); [auto|].
    destruct (last_entry (removelast (pageUrlHistory (ui w)))) as [u|] eqn:E;
      [|auto].
    destruct (Js.truthy u); [|auto]. simpl.
    destruct (removelast_some _ _ E) as (front & cur & Hl & Hr).
    rewrite Hr. rewrite Hl in Hc. rewrite length_app in *. simpl in *. lia.
  - unfold settle. destruct (nth_error (inflight w) i) as [c|]; [|auto].
    simpl. unfold fetchPageData_settle.
    destruct (perform srv c) as [data|[message|]]; simpl; auto.
    destruct (c_isNewQuery c); simpl; auto.
Qed.

Lemma consistent_preserved_witness :
  consistent (ui page1_world)
  /\ consistent (ui (step NextPage page1_world))
  /\ consistent (ui (step (Settle 0 failing) (step NextPage page1_world))).
Proof.
  assert (H1 : consistent (ui page1_world)) by reflexivity.
  pose proof (consistent_preserved NextPage page1_world H1) as H2.
  pose proof (consistent_preserved (Settle 0 failing) _ H2) as H3.
  exact (conj H1 (conj H2 H3)).
Defined.

(** From the first answer on, the invariant holds in every state that is
    reached; before it the history is empty at page 1. *)
Lemma reachable_consistent (w : World) :
  reachable w ->
  consistent (ui w)
  \/ (pageUrlHistory (ui w) = [] /\ currentPage (ui w) = 1
      /\ nextLink (ui w) = None).
Proof.
  intros Hr. destruct (reachable_wellformed w Hr) as (_ & _ & [[H _]|H] & _).
  - now left.
  - right. tauto.
Qed.

(** ** The guard on the two page triggers *)

Lemma loading_guards_next (w : World) :
  isLoading (ui w) = true -> handleNextPage w = w.
Proof.
  intros Hl. unfold handleNextPage. now rewrite Hl, orb_true_r.
Qed.

Lemma loading_guards_prev (w : World) :
  isLoading (ui w) = true -> handlePrevPage w = w.
Proof.
  intros Hl. unfold handlePrevPage. now rewrite Hl, orb_true_r.
Qed.

(** Whenever a new query is answered, in whatever state, the page number
    is 1 and the history is the locator of the answer. *)
Lemma new_query_answer_resets (w : World) (i : nat) (srv : Server) (c : Call)
    (data : WorkflowsResponse) :
  nth_error (inflight w) i = Some c -> c_isNewQuery c = true ->
  perform srv c = Ok data ->
  currentPage (ui (settle i srv w)) = 1
  /\ pageUrlHistory (ui (settle i srv w)) = [requestUrl data].
Proof.
  intros Hc Hq Hok. unfold settle. rewrite Hc. cbn [ui].
  rewrite Hq, Hok. split; reflexivity.
Qed.

(** C9, as the code has it. While the loading flag is set, a next-page
    and a previous-page trigger change nothing: the state stays, and no
    call is added to those in flight. *)
Theorem triggers_ignored_while_loading (w : World) :
  isLoading (ui w) = true ->
  step NextPage w = w /\ step PrevPage w = w.
Proof.
  intros Hl. split; [apply loading_guards_next | apply loading_guards_prev];
    exact Hl.
Qed.

Lemma triggers_ignored_while_loading_witness :
  nextLink (ui (step NextPage page1_world)) = Some "B"
  /\ currentPage (ui (step NextPage page1_world)) = 2
  /\ List.length (pageUrlHistory (ui (step NextPage page1_world))) = 2%nat
  /\ step NextPage (step NextPage page1_world) = step NextPage page1_world
  /\ step PrevPage (step NextPage page1_world) = step NextPage page1_world.
Proof.
  split; [reflexivity|]. split; [reflexivity|]. split; [reflexivity|].
  exact (triggers_ignored_while_loading (step NextPage page1_world) eq_refl).
Defined.

(** As long as every new query starts with nothing in flight, a call in
    flight has the flag set, and the two triggers are ignored during it. *)
Lemma triggers_ignored_in_single_flight (w : World) :
  single_flight w -> inflight w <> [] ->
  step NextPage w = w /\ step PrevPage w = w.
Proof.
  intros Hs Hi. pose proof (single_flight_loading w Hs Hi) as Hl.
  split; [now apply loading_guards_next | now apply loading_guards_prev].
Qed.

(** C9 as stated fails. The filters are applied while the first query is
    in flight; the first query is answered, which clears the flag, and the
    second is still in flight: a next-page trigger is let through, it moves
    the page number and sends a further call. *)
Lemma next_during_flight_accepted :
  List.length (inflight overlap_world) = 1%nat
  /\ isLoading (ui overlap_world) = false
  /\ List.length (inflight (step NextPage overlap_world)) = 2%nat
  /\ currentPage (ui overlap_world) = 1
  /\ currentPage (ui (step NextPage overlap_world)) = 2
  /\ step NextPage overlap_world <> overlap_world.
Proof.
  vm_compute. repeat split; try reflexivity.
  intros H. discriminate H.
Qed.

(** ** Failure of a fetch *)

(** C10. When a call in flight fails, whatever started it, the records,
    the total and the forward cursor are those from before, and so is every
    other part of the state: the state differs by the error message and
    the cleared loading flag only. The start of [fetchPageData] itself sets
    the loading flag and clears the message, and nothing more. *)
Theorem failed_fetch_frame (w : World) (i : nat) (srv : Server) (c : Call) :
  nth_error (inflight w) i = Some c -> fails srv c = true ->
  let s := ui w in
  let s' := ui (step (Settle i srv) w) in
  workflows s' = workflows s
  /\ totalCount s' = totalCount s
  /\ nextLink s' = nextLink s
  /\ (exists message, s' = setIsLoading false (setError (Some message) s))
  /\ forall url isNewQuery,
       ui (fetchPageData_start url isNewQuery w)
       = setError None (setIsLoading true s).
Proof.
  intros Hc Hf s s'. subst s s'. simpl. unfold settle. rewrite Hc.
  cbn [ui]. destruct (fails_throw _ _ Hf) as [e He].
  destruct (settle_failed (c_isNewQuery c) _ e (ui w) He) as [message ->].
  repeat split. now exists message.
Qed.

Lemma failed_fetch_frame_witness :
  nextLink (ui (step (Settle 0 failing) (step NextPage page1_world)))
  = Some "B"
  /\ totalCount (ui (step (Settle 0 failing) (step NextPage page1_world)))
     = 120.
Proof.
  destruct (failed_fetch_frame (step NextPage page1_world) 0 failing
              _ eq_refl eq_refl) as (_ & Ht & Hn & _).
  split; [exact Hn | exact Ht].
Defined.

(* ================================================================== *)
(** * Further properties: what is rendered *)
(* ================================================================== *)

Lemma rounded_quotient (num b : Z) :
  0 < b ->
  exists f r, num = f * b + r /\ 0 <= r < b
    /\ num / b = f /\ num mod b = r.
Proof.
  intros Hb. exists (num / b), (num mod b).
  pose proof (Z.div_mod num b ltac:(lia)).
  pose proof (Z.mod_pos_bound num b Hb). repeat split; lia.
Qed.

Lemma nearest_double_spec (a b : Z) :
  0 < a < 2 ^ 53 -> 0 < b ->
  exists E f r,
    0 <= E
    /\ nearest_double a b
       = (if (b <? 2 * r) || ((b =? 2 * r) && Z.odd f) then f + 1 else f, - E)
    /\ a * 2 ^ E = f * b + r /\ 0 <= r < b /\ 2 ^ 52 <= f.
Proof.
  intros Ha Hb.
  pose proof (Z.log2_spec a ltac:(lia)) as [Hla1 Hla2].
  pose proof (Z.log2_spec b Hb) as [Hlb1 Hlb2].
  pose proof (Z.log2_nonneg a) as Hla0.
  pose proof (Z.log2_nonneg b) as Hlb0.
  assert (Hla : Z.log2 a < 53) by (apply Z.log2_lt_pow2; lia).
  unfold nearest_double. cbv zeta beta. cbn [fst snd].
  set (la := Z.log2 a) in *. set (lb := Z.log2 b) in *.
  set (E0 := 52 - la + lb).
  replace (la - lb - 52) with (- E0) by (unfold E0; lia).
  assert (HE0 : 0 <= E0) by (unfold E0; lia).
  rewrite Z.opp_involutive.
  rewrite (Z.max_r 0 E0), (Z.max_l 0 (- E0)) by lia.
  rewrite Z.pow_0_r, Z.mul_1_r.
  assert (Hpow : 2 ^ la * 2 ^ (E0 + 1) = 2 ^ 52 * 2 ^ Z.succ lb).
  { rewrite <- !Z.pow_add_r by lia. f_equal. unfold E0. lia. }
  destruct (a * 2 ^ E0 <? 2 ^ 52 * b) eqn:T.
  - replace (- (- E0 - 1)) with (E0 + 1) by lia.
    rewrite (Z.max_r 0 (E0 + 1)), (Z.max_l 0 (- E0 - 1)) by lia.
    rewrite Z.pow_0_r, Z.mul_1_r.
    destruct (rounded_quotient (a * 2 ^ (E0 + 1)) b Hb) as (f & r & Hfr & Hr & -> & ->).
    exists (E0 + 1), f, r. split; [lia|]. split; [f_equal; lia|].
    split; [exact Hfr|]. split; [exact Hr|].
    assert (Hp : 0 < 2 ^ (E0 + 1)) by (apply Z.pow_pos_nonneg; lia).
    assert (2 ^ 52 * b < a * 2 ^ (E0 + 1)).
    { apply Z.lt_le_trans with (2 ^ 52 * 2 ^ Z.succ lb).
      - apply Z.mul_lt_mono_pos_l; [apply Z.pow_pos_nonneg; lia | lia].
      - rewrite <- Hpow. apply Z.mul_le_mono_nonneg_r; lia. }
    nia.
  - apply Z.ltb_ge in T. rewrite Z.opp_involutive.
    rewrite (Z.max_r 0 E0), (Z.max_l 0 (- E0)) by lia.
    rewrite Z.pow_0_r, Z.mul_1_r.
    destruct (rounded_quotient (a * 2 ^ E0) b Hb) as (f & r & Hfr & Hr & -> & ->).
    exists E0, f, r. split; [lia|]. split; [reflexivity|].
    split; [exact Hfr|]. split; [exact Hr|]. nia.
Qed.

Lemma ceil_unique (x d c : Z) :
  0 < d -> (c - 1) * d < x <= c * d -> - ((- x) / d) = c.
Proof.
  intros Hd [Hlo Hhi].
  pose proof (Z.div_mod (- x) d ltac:(lia)).
  pose proof (Z.mod_pos_bound (- x) d Hd). nia.
Qed.

Lemma ceil_div_exact (a b : Z) :
  0 < a < 2 ^ 53 -> 0 < b -> ceil_div a b = - ((- a) / b).
Proof.
  intros Ha Hb. unfold ceil_div.
  replace (a =? 0) with false by (symmetry; apply Z.eqb_neq; lia).
  replace (b =? 0) with false by (symmetry; apply Z.eqb_neq; lia).
  cbn [orb]. rewrite (Z.abs_eq a), (Z.abs_eq b) by lia.
  destruct (nearest_double_spec a b Ha Hb) as (E & f & r & HE & -> & Hfr & Hr & Hf).
  set (m := if (b <? 2 * r) || ((b =? 2 * r) && Z.odd f) then f + 1 else f).
  replace (Z.sgn a =? Z.sgn b) with true
    by (symmetry; apply Z.eqb_eq; rewrite !Z.sgn_pos; lia).
  rewrite Z.opp_involutive.
  assert (HP : 0 < 2 ^ E) by (apply Z.pow_pos_nonneg; lia).
  set (C := - ((- a) / b)).
  assert (HC : (C - 1) * b < a <= C * b).
  { unfold C. pose proof (Z.div_mod (- a) b ltac:(lia)).
    pose proof (Z.mod_pos_bound (- a) b Hb). nia. }
  assert (Hm : (m = f /\ 2 * r <= b) \/ (m = f + 1 /\ b <= 2 * r)).
  { unfold m. destruct (Z.ltb_spec b (2 * r)); cbn [orb]; [right; lia|].
    destruct (Z.eqb_spec b (2 * r)); cbn [andb].
    - destruct (Z.odd f); [right | left]; lia.
    - left. lia. }
  clearbody m C.
  assert (Hb2 : b < 2 * 2 ^ E).
  { assert (2 ^ 52 * b <= f * b) by nia.
    assert (a * 2 ^ E < 2 ^ 53 * 2 ^ E) by nia.
    change (2 ^ 53) with (2 * 2 ^ 52) in *. nia. }
  assert (Hgoal : (C - 1) * 2 ^ E < m <= C * 2 ^ E).
  { set (P := 2 ^ E) in *. clearbody P.
    assert (H1 : f * b + r <= (C * P) * b) by nia.
    assert (H2 : ((C - 1) * P) * b + P <= f * b + r) by nia.
    set (CP := C * P) in *. set (nP := (C - 1) * P) in *.
    assert (HnP : nP = CP - P) by (unfold nP, CP; ring).
    clearbody CP nP. split.
    - assert (nP <= f) by nia.
      destruct Hm as [[-> Hr2]|[-> Hr2]]; [|lia].
      assert (nP <> f) by nia. lia.
    - assert (f <= CP) by nia.
      destruct Hm as [[-> Hr2]|[-> Hr2]]; [lia|].
      assert (f <> CP) by nia. lia. }
  destruct (Z.leb_spec 0 (- E)).
  - assert (E = 0) by lia. subst E. change (2 ^ 0) with 1 in *.
    change (2 ^ (- 0)) with 1. lia.
  - apply ceil_unique; assumption.
Qed.

Lemma ceil_div_bounds (a b : Z) :
  0 < a < 2 ^ 53 -> 0 < b ->
  (ceil_div a b - 1) * b < a <= ceil_div a b * b.
Proof.
  intros Ha Hb. rewrite (ceil_div_exact a b Ha Hb).
  pose proof (Z.div_mod (- a) b ltac:(lia)) as Hdm.
  pose proof (Z.mod_pos_bound (- a) b Hb) as Hm.
  nia.
Qed.

Lemma ceil_div_least (a b n : Z) :
  0 < a < 2 ^ 53 -> 0 < b -> a <= n * b -> ceil_div a b <= n.
Proof.
  intros Ha Hb Hn. pose proof (ceil_div_bounds a b Ha Hb) as [Hlo _]. nia.
Qed.

(** Beyond 2^53 the page count follows the double quotient: for a total of
    2^60 + 256 and pages of 50 it is one page short of a cover. *)
Example totalPages_beyond_doubles :
  ceil_div (2 ^ 60 + 256) 50 = 23058430092136944
  /\ 23058430092136944 * 50 < 2 ^ 60 + 256.
Proof. split; vm_compute; reflexivity. Qed.

(** X1. For a total from 1 to below 2^53, [Pagination] renders, and its
    page count is the least number of pages of [size] rows that hold
    [total] rows. *)
Theorem totalPages_least_cover (page size total : Z) (next : bool) :
  0 < size -> 0 < total < 2 ^ 53 ->
  exists v, Pagination page size total next = Some v
    /\ (totalPages v - 1) * size < total <= totalPages v * size
    /\ forall n, total <= n * size -> totalPages v <= n.
Proof.
  intros Hs Ht. unfold Pagination.
  replace (total =? 0) with false by (symmetry; apply Z.eqb_neq; lia).
  eexists. split; [reflexivity|]. cbn [totalPages].
  split; [now apply ceil_div_bounds|].
  intros n Hn. now apply ceil_div_least.
Qed.

Lemma totalPages_least_cover_witness :
  exists v, Pagination 2 50 120 true = Some v
    /\ (totalPages v - 1) * 50 < 120 <= totalPages v * 50.
Proof.
  destruct (totalPages_least_cover 2 50 120 true ltac:(lia) ltac:(lia))
    as (v & Hv & Hb & _).
  exists v. split; [exact Hv | exact Hb].
Defined.

(** X2. For a positive total and a page number from 1 on, the range
    [startIndex]..[endIndex] that is shown starts at 1 or above, ends at
    the total or below and spans [size] rows at most. For a total below
    2^53, where the page count is exact, the range is not empty exactly
    when the page number is within the page count; it spans [size] rows
    before the last page and ends at the total on the last page. *)
Theorem pagination_range (page size total : Z) (next : bool) :
  0 < size -> 0 < total -> 1 <= page ->
  exists v, Pagination page size total next = Some v
    /\ 1 <= startIndex v
    /\ endIndex v <= total
    /\ endIndex v - startIndex v + 1 <= size
    /\ (total < 2 ^ 53 ->
        (startIndex v <= endIndex v <-> page <= totalPages v)
        /\ (page < totalPages v -> endIndex v - startIndex v + 1 = size)
        /\ (page = totalPages v -> endIndex v = total)).
Proof.
  intros Hs Ht Hp. unfold Pagination.
  replace (total =? 0) with false by (symmetry; apply Z.eqb_neq; lia).
  eexists. split; [reflexivity|].
  cbn [totalPages startIndex endIndex].
  split; [nia|]. split; [apply Z.le_min_r|].
  split; [pose proof (Z.le_min_l (page * size) total); nia|].
  intros Hbound.
  pose proof (ceil_div_bounds total size ltac:(lia) Hs) as [Hlo Hhi].
  assert (Hleast : forall n, total <= n * size -> ceil_div total size <= n)
    by (intros n Hn; apply ceil_div_least; [lia | assumption | assumption]).
  set (pages := ceil_div total size) in *. clearbody pages.
  repeat split.
  - intros H. destruct (Z.le_gt_cases page pages) as [|Hgt]; [assumption|].
    pose proof (Hleast (page - 1)). nia.
  - intros H. apply Z.min_glb; nia.
  - intros H. rewrite Z.min_l by nia. ring.
  - intros ->. now apply Z.min_r.
Qed.

Lemma pagination_range_witness :
  exists v, Pagination 3 50 120 false = Some v
    /\ startIndex v = 101 /\ endIndex v = 120.
Proof.
  destruct (pagination_range 3 50 120 false ltac:(lia) ltac:(lia) ltac:(lia))
    as (v & Hv & _ & _ & _ & Hin).
  destruct (Hin ltac:(lia)) as (_ & _ & Hlast).
  exists v. split; [exact Hv|].
  split; [injection Hv as <-; reflexivity|].
  apply Hlast. injection Hv as <-. vm_compute. reflexivity.
Defined.

(* ================================================================== *)
(** * Further properties: sorting *)
(* ================================================================== *)

Lemma handleSort_config (k : string) (w : World) :
  sortConfig (ui (handleSort k w))
  = {| key := Some k;
       direction := match headerDirection (sortConfig (ui w)) k with
                    | Some ascending => descending
                    | _ => ascending
                    end |}.
Proof.
  unfold handleSort, headerDirection. simpl.
  destruct (key (sortConfig (ui w))) as [k'|]; [|now destruct (direction _)].
  destruct (String.eqb k' k), (direction (sortConfig (ui w))); reflexivity.
Qed.

(** X3. A click on a header sorts by its key; the direction becomes
    descending when that header showed the ascending arrow, and ascending
    in every other case (the header showed the descending arrow, or none).
    A second click on the same header then reverses the direction. *)
Theorem sort_click_toggles (k : string) (w : World) :
  let before := headerDirection (sortConfig (ui w)) k in
  let once := step (Sort k) w in
  let twice := step (Sort k) once in
  headerDirection (sortConfig (ui once)) k
  = Some (match before with
          | Some ascending => descending
          | _ => ascending
          end)
  /\ headerDirection (sortConfig (ui twice)) k
     = Some (match before with
             | Some ascending => ascending
             | _ => descending
             end).
Proof.
  cbv zeta. unfold step. rewrite !handleSort_config.
  generalize (headerDirection (sortConfig (ui w)) k). intros before.
  unfold headerDirection. simpl. rewrite !String.eqb_refl.
  destruct before as [[|]|]; split; reflexivity.
Qed.

(** X4. After a click on one of the five headers of the table, that
    header is the only one that shows a direction. *)
Theorem sort_marks_one_header (k : string) (w : World) :
  In k columns ->
  filter (fun c =>
            match headerDirection (sortConfig (ui (step (Sort k) w))) c with
            | Some _ => true
            | None => false
            end) columns
  = [k].
Proof.
  intros Hk. unfold step. rewrite handleSort_config.
  unfold headerDirection. cbn [key direction].
  unfold columns in *. simpl in Hk.
  destruct Hk as [<-|[<-|[<-|[<-|[<-|[]]]]]]; reflexivity.
Qed.

Lemma sort_marks_one_header_witness :
  filter (fun c =>
            match headerDirection
                    (sortConfig (ui (step (Sort "statecode") mount))) c with
            | Some _ => true
            | None => false
            end) columns
  = ["statecode"].
Proof.
  apply (sort_marks_one_header "statecode" mount). simpl. auto.
Defined.

(** X5. A click on a header whose key is not empty sends a query without
    a cursor whose [$orderby] is that key, followed by [desc] when the
    header showed the ascending arrow and by [asc] otherwise; the filters
    of the query are the applied ones. *)
Theorem sort_click_query (k : string) (w : World) :
  k <> "" ->
  exists c,
    inflight (step (Sort k) w) = (inflight w ++ [c])%list
    /\ c_url c = None /\ c_isNewQuery c = true
    /\ c_filters c = appliedFilters (ui w)
    /\ UrlParams.get "$orderby"
         (queryParams (c_sortConfig c) (search (c_filters c))
            (category (c_filters c)) (status (c_filters c)))
       = Some (k ++ match headerDirection (sortConfig (ui w)) k with
                    | Some ascending => " desc"
                    | _ => " asc"
                    end).
Proof.
  intros Hk. exists (callOf (ui (handleSort k w)) None true).
  split; [reflexivity|].
  split; [reflexivity|]. split; [reflexivity|]. split; [reflexivity|].
  rewrite orderby_param. cbn [c_sortConfig callOf].
  rewrite handleSort_config. unfold orderby. simpl.
  destruct k as [|a k]; [congruence|]. simpl.
  destruct (headerDirection (sortConfig (ui w)) (String a k)) as [[|]|];
    reflexivity.
Qed.

Lemma sort_click_query_witness :
  exists c,
    inflight (step (Sort "modifiedon") page1_world) = [c]
    /\ UrlParams.get "$orderby"
         (queryParams (c_sortConfig c) (search (c_filters c))
            (category (c_filters c)) (status (c_filters c)))
       = Some "modifiedon asc".
Proof.
  destruct (sort_click_query "modifiedon" page1_world ltac:(discriminate))
    as (c & Hi & _ & _ & _ & Ho).
  exists c. split; [exact Hi | exact Ho].
Defined.

(* ================================================================== *)
(** * Further properties: the labels of the table *)
(* ================================================================== *)

(** X6. The category that a row shows is the label under which the filter
    offers that category, and [Unknown] for a category the filter does
    not offer. *)
Theorem getCategory_agrees_with_filter (c : Z) :
  getCategory c = match label_of c CATEGORIES with
                  | Some label => label
                  | None => "Unknown"
                  end.
Proof.
  unfold getCategory, CATEGORIES, label_of.
  repeat (destruct (c =? _); [reflexivity|]). reflexivity.
Qed.

(** X7. The badge of a row reads [Draft] exactly for state 0 and
    [Activated] exactly for state 1 with status 2; so a row of a state
    that the status filter offers shows the label of the filter exactly
    when the state is 0 or the status is 2: a row of state 1 with another
    status reads [Inactive]. *)
Theorem getStatus_cases (statecode statuscode : Z) :
  (badge_text (getStatus statecode statuscode) = "Draft" <-> statecode = 0)
  /\ (badge_text (getStatus statecode statuscode) = "Activated"
      <-> statecode = 1 /\ statuscode = 2)
  /\ (forall label, label_of statecode STATUSES = Some label ->
        (badge_text (getStatus statecode statuscode) = label
         <-> statecode = 0 \/ statuscode = 2))
  /\ (statecode = 1 -> statuscode <> 2 ->
      badge_text (getStatus statecode statuscode) = "Inactive").
Proof.
  unfold getStatus, STATUSES, label_of.
  destruct (Z.eqb_spec statecode 0) as [->|H0];
    [|destruct (Z.eqb_spec statecode 1) as [->|H1];
      destruct (Z.eqb_spec statuscode 2) as [->|H2]];
    cbn [andb badge_text Z.eqb Pos.eqb];
    (split; [|split; [|split]]);
    try (split; intros; try discriminate; try lia; try reflexivity;
         intuition (try discriminate; try lia; try congruence); fail);
    try (intros label Hl; injection Hl as <-;
         split; intros; try discriminate; try lia; try reflexivity;
         intuition (try discriminate; try lia); fail);
    try (intros; try discriminate; try lia; try reflexivity; fail).
Qed.

Lemma getStatus_cases_witness :
  badge_text (getStatus 1 3) = "Inactive".
Proof.
  refine (proj2 (proj2 (proj2 (getStatus_cases 1 3))) eq_refl _).
  discriminate.
Defined.

(* ================================================================== *)
(** * Further properties: the theme *)
(* ================================================================== *)

Lemma getItem_setItem_same (k v : string) (st : Storage.t) :
  Storage.getItem k (Storage.setItem k v st) = Some v.
Proof.
  induction st as [|[k' v'] st IH]; simpl.
  - now rewrite String.eqb_refl.
  - destruct (String.eqb k k') eqn:E; simpl; rewrite E; auto.
Qed.

Lemma getItem_setItem_other (k k0 v : string) (st : Storage.t) :
  k0 <> k ->
  Storage.getItem k0 (Storage.setItem k v st) = Storage.getItem k0 st.
Proof.
  intros Hne. induction st as [|[k' v'] st IH]; simpl.
  - destruct (String.eqb k0 k) eqn:E; [|reflexivity].
    apply String.eqb_eq in E. congruence.
  - destruct (String.eqb k k') eqn:E; simpl.
    + apply String.eqb_eq in E. subst k'.
      destruct (String.eqb_spec k0 k); [congruence | reflexivity].
    + now rewrite IH.
Qed.

Lemma contains_add (token : string) (l : ClassList.t) :
  ClassList.contains token (ClassList.add token l) = true.
Proof.
  unfold ClassList.add. destruct (ClassList.contains token l) eqn:E;
    [assumption|].
  unfold ClassList.contains. rewrite existsb_app. simpl.
  now rewrite String.eqb_refl, orb_true_r.
Qed.

Lemma contains_remove (token : string) (l : ClassList.t) :
  ClassList.contains token (ClassList.remove token l) = false.
Proof.
  unfold ClassList.contains, ClassList.remove.
  induction l as [|x l IH]; simpl; [reflexivity|].
  destruct (String.eqb token x) eqn:E; simpl; [assumption|].
  now rewrite E.
Qed.

(** X8. Where there is a [localStorage], the effect on the theme stores
    the theme so that the next start of the application takes it up,
    whatever the system prefers and whatever was stored before; the
    document has the class [dark] afterwards exactly for the dark theme;
    the other keys of the storage keep their values; and the toggle
    always changes the theme, twice back to the first. *)
Theorem theme_persists (theme : Theme) (b : Browser) :
  hasStorage b = true ->
  exists b', themeEffect theme b = Some b'
    /\ getInitialTheme b' = theme
    /\ (ClassList.contains "dark" (classList b') = true <-> theme = dark)
    /\ (forall k, k <> "theme" ->
         Storage.getItem k (localStorage b') = Storage.getItem k (localStorage b))
    /\ toggleTheme theme <> theme
    /\ toggleTheme (toggleTheme theme) = theme.
Proof.
  intros Hs. unfold themeEffect. rewrite Hs. eexists. split; [reflexivity|].
  cbn [localStorage classList].
  split; [|split; [|split; [|split; [now destruct theme | now destruct theme]]]].
  - unfold getInitialTheme. cbn [hasStorage localStorage prefersDark].
    rewrite getItem_setItem_same. now destruct theme.
  - destruct theme.
    + rewrite contains_remove. split; discriminate.
    + rewrite contains_add. split; reflexivity.
  - intros k Hk. now apply getItem_setItem_other.
Qed.

Lemma theme_persists_witness :
  exists b',
    themeEffect dark
      {| hasStorage := true; localStorage := [("theme", "light")];
         prefersDark := false; classList := ["h-full"] |} = Some b'
    /\ getInitialTheme b' = dark.
Proof.
  destruct (theme_persists dark
              {| hasStorage := true; localStorage := [("theme", "light")];
                 prefersDark := false; classList := ["h-full"] |} eq_refl)
    as (b' & H1 & H2 & _).
  exists b'. split; [exact H1 | exact H2].
Defined.

(* ================================================================== *)
(** * Further properties: the fetch client *)
(* ================================================================== *)

(** X9. [fetchWorkflows] gives a page exactly when both endpoints answer
    with success and the body of the data endpoint decodes: the data
    endpoint is asked for the locator [fetchUrl] with the token read from
    the body of the credential endpoint, the page has the rows of the
    body, the forward cursor of the body (null when it is absent or
    empty), its count (0 when it is absent) and the locator that was
    asked for. *)
Theorem fetchWorkflows_ok_iff (srv : Server) (sc : SortConfig) (s : string)
    (cat st : option Z) (url : option string) (data : WorkflowsResponse) :
  fetchWorkflows srv sc s cat st url = Ok data
  <-> exists tr dr body,
        post_token srv = Ok tr /\ tok_ok tr = true
        /\ get_data srv (fetchUrl sc s cat st url) (tokenOfBody (tok_text tr))
           = Ok dr
        /\ dat_ok dr = true /\ dat_json dr = Ok body
        /\ data = {| r_workflows := value body;
                     r_nextLink := match odata_nextLink body with
                                   | Some "" | None => None
                                   | Some link => Some link
                                   end;
                     r_totalCount := match odata_count body with
                                     | Some n => n
                                     | None => 0
                                     end;
                     requestUrl := fetchUrl sc s cat st url |}.
Proof.
  unfold fetchWorkflows, getAuthToken, getWorkflowsFromUrl. split.
  - destruct (post_token srv) as [tr|]; [|discriminate].
    destruct (tok_ok tr) eqn:Etok; [|discriminate]. cbn [negb].
    destruct (get_data srv _ _) as [dr|] eqn:Eget; [|discriminate].
    destruct (dat_ok dr) eqn:Edat; [|discriminate]. cbn [negb].
    destruct (dat_json dr) as [body|] eqn:Ejson; [|discriminate].
    intros [= <-]. exists tr, dr, body. repeat split; auto.
    f_equal.
    + destruct (odata_nextLink body) as [[|c l]|]; reflexivity.
    + destruct (odata_count body) as [n|]; [|reflexivity].
      destruct (n =? 0) eqn:E; [apply Z.eqb_eq in E; lia | reflexivity].
  - intros (tr & dr & body & Ht & Htok & Hget & Hdat & Hjson & ->).
    rewrite Ht, Htok. cbn [negb]. rewrite Hget, Hdat. cbn [negb].
    rewrite Hjson. cbn [p_workflows p_nextLink p_totalCount]. f_equal. f_equal.
    + destruct (odata_nextLink body) as [[|c l]|]; reflexivity.
    + destruct (odata_count body) as [n|]; [|reflexivity].
      destruct (n =? 0) eqn:E; [apply Z.eqb_eq in E; lia | reflexivity].
Qed.

(** X10. With a cursor that is not empty, [fetchWorkflows] asks for the
    cursor itself: sort, search text, category and status have no part in
    the outcome, and the locator of the page is the cursor. *)
Theorem explicit_url_verbatim (srv : Server) (sc sc' : SortConfig)
    (s s' : string) (cat cat' st st' : option Z) (url : string) :
  url <> "" ->
  fetchWorkflows srv sc s cat st (Some url)
  = fetchWorkflows srv sc' s' cat' st' (Some url)
  /\ forall data, fetchWorkflows srv sc s cat st (Some url) = Ok data ->
                  requestUrl data = url.
Proof.
  intros Hu.
  assert (Hf : forall a b c d, fetchUrl a b c d (Some url) = url).
  { intros. unfold fetchUrl. destruct url; [congruence | reflexivity]. }
  unfold fetchWorkflows. rewrite !Hf. split; [reflexivity|].
  destruct (getAuthToken srv) as [token|]; [|discriminate].
  destruct (getWorkflowsFromUrl srv url token); [|discriminate].
  now intros data [= <-].
Qed.

Lemma explicit_url_verbatim_witness :
  fetchWorkflows (serving [] None 3)
    {| key := Some "name"; direction := ascending |} "flow" (Some 2) None
    (Some "B")
  = fetchWorkflows (serving [] None 3)
      {| key := None; direction := descending |} "" None (Some 1) (Some "B").
Proof.
  refine (proj1 (explicit_url_verbatim (serving [] None 3) _ _ _ _ _ _ _ _ "B" _)).
  discriminate.
Defined.

Lemma append_assoc3 (a b c : string) : (a ++ b) ++ c = a ++ (b ++ c).
Proof. induction a as [|x a IH]; simpl; [reflexivity | now rewrite IH]. Qed.

(** X11. When the credential endpoint answers with a status that is not a
    success, the call that is settled shows the message [Failed to fetch
    data: HTTP error <status> while fetching token.. Please check console
    for details.], the loading flag is cleared and the table is hidden;
    what the data endpoint would answer plays no part. *)
Theorem token_failure_shown (w : World) (i : nat) (srv : Server) (c : Call)
    (tr : TokenResponse) :
  nth_error (inflight w) i = Some c ->
  post_token srv = Ok tr -> tok_ok tr = false ->
  error (ui (step (Settle i srv) w))
  = Some ("Failed to fetch data: HTTP error "
            ++ Js.string_of_number (tok_status tr)
            ++ " while fetching token.. Please check console for details.")
  /\ isLoading (ui (step (Settle i srv) w)) = false
  /\ tableVisible (ui (step (Settle i srv) w)) = false
  /\ forall srv', post_token srv' = post_token srv ->
       step (Settle i srv') w = step (Settle i srv) w.
Proof.
  intros Hc Ht Hok.
  assert (Hp : forall srv', post_token srv' = post_token srv ->
             perform srv' c
             = Throw (JsError ("HTTP error " ++ Js.string_of_number (tok_status tr)
                                 ++ " while fetching token."))).
  { intros srv' E. unfold perform, fetchWorkflows, getAuthToken.
    now rewrite E, Ht, Hok. }
  unfold step, settle. rewrite Hc.
  rewrite (Hp srv eq_refl).
  unfold fetchPageData_settle, tableVisible. cbn [ui error isLoading setError setIsLoading].
  split; [|split; [reflexivity|split; [reflexivity|]]].
  - f_equal. simpl. now rewrite append_assoc3.
  - intros srv' E. now rewrite (Hp srv' E).
Qed.

Lemma token_failure_shown_witness :
  error (ui (step (Settle 0 denying) mount))
  = Some "Failed to fetch data: HTTP error 401 while fetching token.. Please check console for details.".
Proof.
  exact (proj1 (token_failure_shown mount 0 denying
                  (callOf initialState None true)
                  {| tok_ok := false; tok_status := 401; tok_text := "denied" |}
                  eq_refl eq_refl eq_refl)).
Defined.

(** X12. When the credential endpoint answers with success and the data
    endpoint with a status that is not a success, the call that is
    settled shows [Failed to fetch data: HTTP error <status> while fetching
    workflows.. Please check console for details.], and the records, the
    total and the forward cursor are not touched. *)
Theorem data_failure_shown (w : World) (i : nat) (srv : Server) (c : Call)
    (tr : TokenResponse) (dr : DataResponse) :
  nth_error (inflight w) i = Some c ->
  post_token srv = Ok tr -> tok_ok tr = true ->
  get_data srv (locatorOf c) (tokenOfBody (tok_text tr)) = Ok dr ->
  dat_ok dr = false ->
  error (ui (step (Settle i srv) w))
  = Some ("Failed to fetch data: HTTP error "
            ++ Js.string_of_number (dat_status dr)
            ++ " while fetching workflows.. Please check console for details.")
  /\ tableVisible (ui (step (Settle i srv) w)) = false
  /\ workflows (ui (step (Settle i srv) w)) = workflows (ui w)
  /\ totalCount (ui (step (Settle i srv) w)) = totalCount (ui w)
  /\ nextLink (ui (step (Settle i srv) w)) = nextLink (ui w).
Proof.
  intros Hc Ht Hok Hget Hdat.
  unfold step, settle. rewrite Hc.
  unfold perform, fetchWorkflows, getAuthToken, getWorkflowsFromUrl.
  rewrite Ht, Hok. cbn [negb]. fold (locatorOf c). rewrite Hget, Hdat.
  cbn [negb]. unfold fetchPageData_settle, tableVisible.
  cbn [ui error isLoading setError setIsLoading workflows totalCount nextLink].
  repeat split. f_equal. simpl. now rewrite append_assoc3.
Qed.

Lemma data_failure_shown_witness :
  error (ui (step (Settle 0 failing) mount))
  = Some "Failed to fetch data: HTTP error 500 while fetching workflows.. Please check console for details.".
Proof.
  exact (proj1 (data_failure_shown mount 0 failing
                  (callOf initialState None true)
                  {| tok_ok := true; tok_status := 200; tok_text := "abc123" |}
                  {| dat_ok := false; dat_status := 500; dat_text := "down";
                     dat_json := Throw (JsError "Unexpected token") |}
                  eq_refl eq_refl eq_refl eq_refl eq_refl)).
Defined.

(** ** The token of a body that is no JSON *)

Lemma trim_start_blank (s : string) :
  blank s = true -> Js.trim_start s = "".
Proof.
  induction s as [|c s IH]; simpl; [reflexivity|].
  intros H. apply andb_prop in H as [Hc Hs]. rewrite Hc. auto.
Qed.

Lemma space_no_json_start (c : ascii) (rest : string) (n : nat) :
  Js.is_space c = true -> Json.is_ws c = false ->
  Json.skip_ws (String c rest) = String c rest
  /\ Json.read_value (S n) (String c rest) = None.
Proof.
  destruct c as [[|] [|] [|] [|] [|] [|] [|] [|]];
    intros Hs Hw; try discriminate Hs; try discriminate Hw;
    split; reflexivity.
Qed.

Lemma read_value_blank (s : string) (n : nat) :
  blank s = true -> Json.read_value (S n) s = None.
Proof.
  induction s as [|c s IH]; intros H; [reflexivity|].
  simpl in H. apply andb_prop in H as [Hc Hs].
  destruct (Json.is_ws c) eqn:Hw.
  - specialize (IH Hs). simpl in *. rewrite Hw. exact IH.
  - apply space_no_json_start; assumption.
Qed.

Lemma parse_blank (s : string) : blank s = true -> Json.parse s = None.
Proof.
  intros H. unfold Json.parse. now rewrite read_value_blank.
Qed.

(** X13. A successful answer of the credential endpoint whose body is
    empty or white space only is no error: the token is the empty string,
    and the data endpoint is then asked with the empty token. *)
Theorem blank_body_gives_empty_token (srv : Server) (tr : TokenResponse)
    (sc : SortConfig) (s : string) (cat st : option Z) (url : option string) :
  post_token srv = Ok tr -> tok_ok tr = true -> blank (tok_text tr) = true ->
  getAuthToken srv = Ok ""
  /\ fetchWorkflows srv sc s cat st url
     = match getWorkflowsFromUrl srv (fetchUrl sc s cat st url) "" with
       | Ok page => Ok {| r_workflows := p_workflows page;
                          r_nextLink := p_nextLink page;
                          r_totalCount := p_totalCount page;
                          requestUrl := fetchUrl sc s cat st url |}
       | Throw e => Throw e
       end.
Proof.
  intros Ht Hok Hb.
  assert (Htoken : getAuthToken srv = Ok "").
  { rewrite (getAuthToken_ok srv tr Ht Hok). f_equal.
    unfold tokenOfBody. rewrite (parse_blank _ Hb).
    unfold Js.trim. now rewrite (trim_start_blank _ Hb). }
  split; [exact Htoken|].
  unfold fetchWorkflows. now rewrite Htoken.
Qed.

Lemma blank_body_gives_empty_token_witness :
  getAuthToken (credentialServer (String (ascii_of_nat 32)
                                    (String (ascii_of_nat 10) EmptyString)))
  = Ok "".
Proof.
  exact (proj1 (blank_body_gives_empty_token
                  (credentialServer (String (ascii_of_nat 32)
                                       (String (ascii_of_nat 10) EmptyString)))
                  {| tok_ok := true; tok_status := 200;
                     tok_text := String (ascii_of_nat 32)
                                   (String (ascii_of_nat 10) EmptyString) |}
                  {| key := None; direction := descending |} "" None None None
                  eq_refl eq_refl eq_refl)).
Defined.

Lemma trim_start_first (s : string) (c : ascii) :
  first_char (Js.trim_start s) = Some c -> Js.is_space c = false.
Proof.
  induction s as [|a s IH]; simpl; [discriminate|].
  destruct (Js.is_space a) eqn:E; [assumption|].
  simpl. now intros [= <-].
Qed.

Lemma trim_end_first (s : string) (c : ascii) :
  first_char s = Some c -> Js.is_space c = false ->
  first_char (Js.trim_end s) = Some c.
Proof.
  destruct s as [|a s]; simpl; [discriminate|].
  intros [= ->] Hc. destruct (Js.trim_end s); [now rewrite Hc | reflexivity].
Qed.

Lemma trim_end_last (s : string) (c : ascii) :
  last_char (Js.trim_end s) = Some c -> Js.is_space c = false.
Proof.
  revert c. induction s as [|a s IH]; intros c; simpl; [discriminate|].
  destruct (Js.trim_end s) as [|k kept] eqn:E.
  - destruct (Js.is_space a) eqn:Ea; simpl; [discriminate|].
    now intros [= <-].
  - change (last_char (String a (String k kept)))
      with (match last_char (String k kept) with
            | Some l => Some l
            | None => Some a
            end).
    destruct (last_char (String k kept)) as [l|] eqn:El.
    + intros [= <-]. now apply IH.
    + simpl in El. destruct (last_char kept); discriminate.
Qed.

Lemma trim_end_empty (s : string) :
  Js.trim_end s = "" -> blank s = true.
Proof.
  induction s as [|a s IH]; simpl; [reflexivity|].
  destruct (Js.trim_end s); [|discriminate].
  destruct (Js.is_space a); [auto | discriminate].
Qed.

Lemma blank_trim_start (s : string) :
  blank (Js.trim_start s) = true -> blank s = true.
Proof.
  induction s as [|a s IH]; simpl; [reflexivity|].
  destruct (Js.is_space a) eqn:Ea; [auto|].
  simpl. now rewrite Ea.
Qed.

(** X14. When the body of a successful answer of the credential endpoint
    is no JSON, the token neither starts nor ends with white space, and it
    is empty only when the body is white space throughout. *)
Theorem plain_token_is_trimmed (srv : Server) (tr : TokenResponse) :
  post_token srv = Ok tr -> tok_ok tr = true ->
  Json.parse (tok_text tr) = None ->
  exists token : string, getAuthToken srv = Ok token
    /\ (forall c, first_char token = Some c -> Js.is_space c = false)
    /\ (forall c, last_char token = Some c -> Js.is_space c = false)
    /\ (token = "" <-> blank (tok_text tr) = true).
Proof.
  intros Ht Hok Hp. rewrite (getAuthToken_ok srv tr Ht Hok).
  unfold tokenOfBody. rewrite Hp. eexists. split; [reflexivity|].
  unfold Js.trim. split; [|split].
  - intros c Hc.
    destruct (Js.trim_start (tok_text tr)) as [|a r] eqn:E; [discriminate|].
    assert (Ha : Js.is_space a = false)
      by (apply (trim_start_first (tok_text tr)); now rewrite E).
    rewrite (trim_end_first (String a r) a eq_refl Ha) in Hc.
    now injection Hc as <-.
  - intros c. apply trim_end_last.
  - split.
    + intros He. now apply blank_trim_start, trim_end_empty.
    + intros Hb. now rewrite (trim_start_blank _ Hb).
Qed.

(** A token that is read from a JSON object is not trimmed. *)
Example json_token_not_trimmed :
  getAuthToken
    (credentialServer
       ("{" ++ Json.quoted "token" ++ ":" ++ Json.quoted " t1 " ++ ","
            ++ Json.quoted "note" ++ ":"
            ++ Json.quoted (String Json.backslash "u20ac") ++ "}"))
  = Ok " t1 ".
Proof. vm_compute. reflexivity. Qed.

Lemma plain_token_is_trimmed_witness :
  exists token : string,
    getAuthToken (credentialServer (" abc 123 " ++ String (ascii_of_nat 13) EmptyString))
    = Ok token
    /\ (forall c, last_char token = Some c -> Js.is_space c = false).
Proof.
  destruct (plain_token_is_trimmed
              (credentialServer (" abc 123 " ++ String (ascii_of_nat 13) EmptyString))
              {| tok_ok := true; tok_status := 200;
                 tok_text := " abc 123 " ++ String (ascii_of_nat 13) EmptyString |}
              eq_refl eq_refl eq_refl) as (token & H1 & _ & H3 & _).
  exists token. split; [exact H1 | exact H3].
Defined.

(** ** The locator that is built *)

Lemma count_char_app (c : ascii) (a b : string) :
  count_char c (a ++ b) = (count_char c a + count_char c b)%nat.
Proof.
  induction a as [|x a IH]; simpl; [reflexivity|].
  destruct (Ascii.eqb x c); simpl; now rewrite IH.
Qed.

Lemma all_chars_app (p : ascii -> bool) (a b : string) :
  all_chars p (a ++ b) = all_chars p a && all_chars p b.
Proof.
  induction a as [|x a IH]; simpl; [reflexivity|].
  now rewrite IH, andb_assoc.
Qed.

Lemma encode_unit_safe (c : ascii) :
  all_chars url_safe (UrlParams.encode_unit c) = true.
Proof.
  destruct c as [[|] [|] [|] [|] [|] [|] [|] [|]]; vm_compute; reflexivity.
Qed.

Lemma encode_safe (s : string) :
  all_chars url_safe (UrlParams.encode s) = true.
Proof.
  induction s as [|c s IH]; simpl; [reflexivity|].
  now rewrite all_chars_app, encode_unit_safe, IH.
Qed.

Lemma count_unsafe (d : ascii) (s : string) :
  url_safe d = false -> all_chars url_safe s = true -> count_char d s = O.
Proof.
  intros Hd. induction s as [|x s IH]; simpl; [reflexivity|].
  intros H. apply andb_prop in H as [Hx Hs].
  destruct (Ascii.eqb_spec x d) as [->|_]; [congruence | auto].
Qed.

Lemma count_encode (d : ascii) (s : string) :
  url_safe d = false -> count_char d (UrlParams.encode s) = O.
Proof. intros Hd. apply count_unsafe; [assumption | apply encode_safe]. Qed.

Lemma count_concat (d : ascii) (sep : string) (l : list string) :
  count_char d (String.concat sep l)
  = (list_sum (map (count_char d) l)
     + (List.length l - 1) * count_char d sep)%nat.
Proof.
  induction l as [|x l IH]; [reflexivity|].
  destruct l as [|y l].
  - simpl. lia.
  - change (String.concat sep (x :: y :: l))
      with (x ++ sep ++ String.concat sep (y :: l)).
    rewrite !count_char_app, IH. simpl. lia.
Qed.

Lemma count_pairs (d : ascii) (q : UrlParams.t) :
  url_safe d = false ->
  list_sum (map (count_char d)
              (map (fun kv => UrlParams.encode (fst kv) ++ "="
                                ++ UrlParams.encode (snd kv)) q))
  = (List.length q * (if Ascii.eqb d "=" then 1 else 0))%nat.
Proof.
  intros Hd. induction q as [|[k v] q IH]; [reflexivity|].
  match goal with
  | |- list_sum (map _ (map ?f _)) = _ =>
      change (list_sum (map (count_char d) (map f ((k, v) :: q))))
        with (count_char d (UrlParams.encode k ++ "=" ++ UrlParams.encode v)
              + list_sum (map (count_char d) (map f q)))%nat
  end.
  rewrite IH. cbn [List.length].
  rewrite !count_char_app, !count_encode by assumption.
  cbn [count_char]. rewrite (Ascii.eqb_sym "="%char d).
  destruct (Ascii.eqb d "="); lia.
Qed.

(** In the serialized parameters, a character that no name or value can
    hold occurs as often as the serializer writes it: [&] between two
    parameters, [=] once in each. *)
Lemma count_toString (d : ascii) (q : UrlParams.t) :
  url_safe d = false ->
  count_char d (UrlParams.toString q)
  = ((if Ascii.eqb d "&" then List.length q - 1 else 0)
     + (if Ascii.eqb d "=" then List.length q else 0))%nat.
Proof.
  intros Hd. unfold UrlParams.toString, Js.join.
  rewrite count_concat, count_pairs by assumption.
  rewrite length_map. cbn [count_char].
  rewrite (Ascii.eqb_sym "&"%char d).
  destruct (Ascii.eqb d "&"), (Ascii.eqb d "="); lia.
Qed.

Lemma queryParams_length (sc : SortConfig) (s : string) (cat st : option Z) :
  List.length (queryParams sc s cat st)
  = match filterClauses s cat st with
    | [] => 3%nat
    | _ :: _ => 4%nat
    end.
Proof.
  unfold queryParams. destruct (filterClauses s cat st); reflexivity.
Qed.

(** X15. The locator that is built from sort and filters has one [?],
    three parameters without a filter and four with one, an [&] between
    two parameters and an [=] in each, and neither a quote, a space nor a
    [#]: whatever the search text and the sort key hold, they add no
    parameter and do not end the query. *)
Theorem built_locator_shape (sc : SortConfig) (s : string) (cat st : option Z) :
  let u := fetchUrl sc s cat st None in
  let n := match filterClauses s cat st with
           | [] => 3%nat
           | _ :: _ => 4%nat
           end in
  count_char "?" u = 1%nat
  /\ count_char "&" u = (n - 1)%nat
  /\ count_char "=" u = n
  /\ count_char "'" u = 0%nat
  /\ count_char " " u = 0%nat
  /\ count_char "#" u = 0%nat.
Proof.
  cbv zeta. unfold fetchUrl.
  rewrite !count_char_app, !count_toString by reflexivity.
  rewrite queryParams_length.
  destruct (filterClauses s cat st); repeat split; reflexivity.
Qed.

(** X16. The built query has no [$filter] exactly when there is no status,
    the search text is empty and the category is null or negative; a
    negative status is not left out. *)
Theorem filter_absent_iff (sc : SortConfig) (s : string) (cat st : option Z) :
  UrlParams.get "$filter" (queryParams sc s cat st) = None
  <-> st = None /\ s = ""
      /\ (cat = None \/ exists c, cat = Some c /\ c < 0).
Proof.
  rewrite filter_param. unfold filterClauses. split.
  - destruct st as [x|]; [discriminate|].
    destruct s as [|a s']; [|discriminate]. simpl.
    destruct cat as [c|]; [|auto].
    destruct (Z.leb_spec 0 c); [discriminate|].
    intros _. repeat split. right. eauto.
  - intros (-> & -> & [->|(c & -> & Hc)]); simpl; [reflexivity|].
    destruct (Z.leb_spec 0 c); [lia | reflexivity].
Qed.

(* ================================================================== *)
(** * Further properties: the pagination controller *)
(* ================================================================== *)

Lemma start_then_settle (w : World) (s : AppState) (url : option string)
    (isNewQuery : bool) (srv : Server) :
  settle (List.length (inflight w)) srv
    (fetchPageData_start url isNewQuery (with_ui s w))
  = {| ui := fetchPageData_settle isNewQuery
               (perform srv (callOf s url isNewQuery))
               (setError None (setIsLoading true s));
       inflight := inflight w |}.
Proof.
  unfold fetchPageData_start. cbn [ui inflight with_ui].
  now rewrite settle_started.
Qed.

Lemma perform_explicit (srv : Server) (s : AppState) (url : string)
    (data : WorkflowsResponse) :
  Js.truthy url = true ->
  perform srv (callOf s (Some url) false) = Ok data -> requestUrl data = url.
Proof.
  intros Hu Hok. destruct (perform_ok _ _ _ Hok) as [-> _].
  cbn [callOf c_url c_sortConfig c_filters]. unfold fetchUrl. now rewrite Hu.
Qed.

(** X17. When a next-page trigger is let through and its fetch is
    answered, the page number is one higher, the history has one more
    entry, which is the forward cursor and the locator of the page that
    is now shown; records, total and forward cursor are those of the
    answer, no message is shown and the table is visible. *)
Theorem next_page_answered (w : World) (srv : Server) (link : string)
    (data : WorkflowsResponse) :
  nextLink (ui w) = Some link -> Js.truthy link = true ->
  isLoading (ui w) = false ->
  perform srv (callOf (ui w) (Some link) false) = Ok data ->
  let w' := step (Settle (List.length (inflight w)) srv) (step NextPage w) in
  currentPage (ui w') = currentPage (ui w) + 1
  /\ pageUrlHistory (ui w') = (pageUrlHistory (ui w) ++ [requestUrl data])%list
  /\ requestUrl data = link
  /\ workflows (ui w') = r_workflows data
  /\ totalCount (ui w') = r_totalCount data
  /\ nextLink (ui w') = r_nextLink data
  /\ tableVisible (ui w') = true
  /\ inflight w' = inflight w.
Proof.
  intros Hn Ht Hl Hok. cbv zeta. unfold step.
  rewrite (handleNextPage_accepted w link Hn Ht Hl), start_then_settle.
  change (callOf _ (Some link) false) with (callOf (ui w) (Some link) false).
  rewrite Hok. rewrite (perform_explicit srv (ui w) link data Ht Hok).
  repeat split.
Qed.

Lemma next_page_answered_witness :
  currentPage (ui page2_world) = 1 + 1
  /\ pageUrlHistory (ui page2_world)
     = (pageUrlHistory (ui page1_world) ++ ["B"])%list.
Proof.
  destruct (next_page_answered page1_world (serving [] None 120) "B"
              {| r_workflows := []; r_nextLink := None; r_totalCount := 120;
                 requestUrl := "B" |}
              eq_refl eq_refl eq_refl eq_refl) as (Hp & Hh & _).
  split; [exact Hp | exact Hh].
Defined.

Lemma reachable_history_last (w : World) (link : string) :
  reachable w -> nextLink (ui w) = Some link ->
  exists front shown,
    pageUrlHistory (ui w) = (front ++ [shown])%list
    /\ Js.truthy shown = true /\ 1 <= currentPage (ui w)
    /\ Js.truthy link = true.
Proof.
  intros Hr Hn.
  destruct (reachable_wellformed w Hr) as (Hh & _ & Hc & _).
  destruct Hc as [[Hc Hp]|(_ & _ & Hnone & _)]; [|congruence].
  unfold consistent in Hc.
  destruct (pageUrlHistory (ui w)) as [|x l] eqn:E using rev_ind;
    [simpl in Hc; lia|].
  exists l, x. apply Forall_app in Hh as [_ Hx]. inversion Hx; subst.
  repeat split; auto. now apply (reachable_nextLink w link).
Qed.

(** X18. One page forward and one page back. From a reachable state with
    the loading flag clear and a forward cursor, once the next page is
    answered a previous-page trigger is let through: it sends one call,
    for the entry that was the last of the history before the step
    forward, and page number and history are again those from before the
    step forward; when that call is answered, its records are shown and
    the locator of the answer is that entry. *)
Theorem next_then_prev_returns (w : World) (srv srv' : Server) (link : string)
    (data data' : WorkflowsResponse) :
  reachable w -> isLoading (ui w) = false ->
  nextLink (ui w) = Some link ->
  perform srv (callOf (ui w) (Some link) false) = Ok data ->
  let n := List.length (inflight w) in
  let back := run [NextPage; Settle n srv; PrevPage] w in
  exists top,
    last_entry (pageUrlHistory (ui w)) = Some top
    /\ inflight back = (inflight w ++ [callOf (ui w) (Some top) false])%list
    /\ currentPage (ui back) = currentPage (ui w)
    /\ pageUrlHistory (ui back) = pageUrlHistory (ui w)
    /\ (perform srv' (callOf (ui w) (Some top) false) = Ok data' ->
        let final := step (Settle n srv') back in
        workflows (ui final) = r_workflows data'
        /\ requestUrl data' = top
        /\ currentPage (ui final) = currentPage (ui w)
        /\ pageUrlHistory (ui final) = pageUrlHistory (ui w)
        /\ inflight final = inflight w).
Proof.
  intros Hr Hl Hn Hok. cbv zeta.
  destruct (reachable_history_last w link Hr Hn)
    as (front & top & Hh & Hs & Hp & Ht).
  exists top. split; [rewrite Hh; apply last_entry_snoc|].
  change (run [NextPage; Settle (List.length (inflight w)) srv; PrevPage] w)
    with (step PrevPage
            (step (Settle (List.length (inflight w)) srv) (step NextPage w))).
  assert (E1 : step (Settle (List.length (inflight w)) srv) (step NextPage w)
               = {| ui := fetchPageData_settle false (Ok data)
                            (setError None (setIsLoading true
                               (setPageUrlHistory (pageUrlHistory (ui w) ++ [link])
                                  (setCurrentPage (currentPage (ui w) + 1) (ui w)))));
                    inflight := inflight w |}).
  { unfold step.
    rewrite (handleNextPage_accepted w link Hn Ht Hl), start_then_settle.
    change (callOf _ (Some link) false) with (callOf (ui w) (Some link) false).
    now rewrite Hok. }
  rewrite E1. clear E1.
  match goal with
  | |- context [step PrevPage ?x] => set (w1 := x)
  end.
  assert (H1 : 1 < currentPage (ui w1)) by (subst w1; simpl; lia).
  assert (H2 : isLoading (ui w1) = false) by reflexivity.
  assert (H3 : last_entry (removelast (pageUrlHistory (ui w1))) = Some top).
  { subst w1. cbn. rewrite removelast_last, Hh. apply last_entry_snoc. }
  assert (Hrem : removelast (pageUrlHistory (ui w1)) = pageUrlHistory (ui w))
    by (subst w1; cbn; apply removelast_last).
  assert (Hcp : currentPage (ui w1) - 1 = currentPage (ui w))
    by (subst w1; cbn; lia).
  unfold step.
  rewrite (handlePrevPage_accepted w1 top H1 H2 H3 Hs).
  split; [reflexivity|]. split; [exact Hcp|]. split; [exact Hrem|].
  intros Hok'.
  change (inflight w) with (inflight w1).
  rewrite start_then_settle.
  change (callOf _ (Some top) false) with (callOf (ui w) (Some top) false).
  rewrite Hok'.
  rewrite (perform_explicit srv' (ui w) top data' Hs Hok').
  cbn [ui inflight fetchPageData_settle workflows currentPage pageUrlHistory
       setWorkflows setTotalCount setNextLink setIsLoading setError
       setPageUrlHistory setCurrentPage].
  repeat split; auto.
Qed.

Lemma next_then_prev_returns_witness :
  exists top,
    last_entry (pageUrlHistory (ui page1_world)) = Some top
    /\ currentPage
         (ui (run [NextPage; Settle 0 (serving [] None 120); PrevPage] page1_world))
       = 1.
Proof.
  destruct (next_then_prev_returns page1_world (serving [] None 120)
              (serving [] (Some "B") 120) "B"
              {| r_workflows := []; r_nextLink := None; r_totalCount := 120;
                 requestUrl := "B" |}
              {| r_workflows := []; r_nextLink := Some "B"; r_totalCount := 120;
                 requestUrl := "https://wecare-ii.crm5.dynamics.com/api/data/v9.2/workflows?%24top=50&%24count=true&%24orderby=modifiedon+desc" |}
              reachable_page1 eq_refl eq_refl eq_refl)
    as (top & H1 & _ & H3 & _).
  exists top. split; [exact H1 | exact H3].
Defined.

(** X19. In every state that the component reaches, the page number is 1
    at least, no entry of the history is the empty string, the forward
    cursor is null or not empty, the loading flag is set only while a call
    is in flight, and a history that is not empty has one entry per
    page. *)
Theorem reachable_invariants (w : World) :
  reachable w ->
  1 <= currentPage (ui w)
  /\ (forall u, In u (pageUrlHistory (ui w)) -> u <> "")
  /\ nextLink (ui w) <> Some ""
  /\ (isLoading (ui w) = true -> inflight w <> [])
  /\ (pageUrlHistory (ui w) <> [] -> consistent (ui w)).
Proof.
  intros Hr. destruct (reachable_wellformed w Hr) as (Hh & Hn & Hc & Hl).
  repeat split.
  - destruct Hc as [[_ Hp]|(_ & -> & _)]; lia.
  - intros u Hu ->. rewrite Forall_forall in Hh.
    specialize (Hh "" Hu). discriminate.
  - intros E. rewrite E in Hn. destruct Hn; discriminate.
  - exact Hl.
  - intros Hne. destruct Hc as [[Hc _]|(He & _)]; [assumption | contradiction].
Qed.

Lemma reachable_invariants_witness :
  1 <= currentPage (ui (run [PrevPage; Settle 0 failing; PrevPage] page2_world)).
Proof.
  refine (proj1 (reachable_invariants _ _)).
  apply reachable_run, reachable_page2.
Defined.

(** X20. The buttons and their handlers agree. In a reachable state whose
    pagination is rendered, a click on a disabled button changes nothing;
    with the loading flag clear, a click on the enabled Previous button
    sends one call, for the entry of the history before the last, and a
    click on the enabled Next button sends one call, for the forward
    cursor. *)
Theorem buttons_agree_with_handlers (w : World) (v : PaginationView) :
  reachable w -> paginationOf (ui w) = Some v ->
  (prevDisabled v = true -> step PrevPage w = w)
  /\ (nextDisabled v = true -> step NextPage w = w)
  /\ (isLoading (ui w) = false -> prevDisabled v = false ->
      exists u, last_entry (removelast (pageUrlHistory (ui w))) = Some u
        /\ inflight (step PrevPage w)
           = (inflight w ++ [callOf (ui w) (Some u) false])%list)
  /\ (isLoading (ui w) = false -> nextDisabled v = false ->
      exists link, nextLink (ui w) = Some link
        /\ inflight (step NextPage w)
           = (inflight w ++ [callOf (ui w) (Some link) false])%list).
Proof.
  intros Hr Hv. unfold paginationOf, Pagination in Hv.
  destruct (totalCount (ui w) =? 0); [discriminate|].
  injection Hv as <-. cbn [prevDisabled nextDisabled].
  destruct (reachable_wellformed w Hr) as (Hh & _ & Hc & _).
  split; [|split; [|split]].
  - intros Hd. apply negb_true_iff, Z.ltb_ge in Hd.
    unfold step, handlePrevPage.
    replace (currentPage (ui w) <=? 1) with true
      by (symmetry; now apply Z.leb_le).
    reflexivity.
  - intros Hd. apply negb_true_iff in Hd.
    unfold step, handleNextPage. now rewrite Hd.
  - intros Hl Hd. apply negb_false_iff, Z.ltb_lt in Hd.
    destruct Hc as [[Hc _]|(_ & Hone & _)]; [|lia].
    unfold consistent in Hc.
    destruct (pageUrlHistory (ui w)) as [|cur l] eqn:E using rev_ind;
      [simpl in Hc; lia|].
    destruct l as [|u front] using rev_ind;
      [simpl in Hc; lia|].
    clear IHl IHfront. exists u.
    assert (He : last_entry (removelast (pageUrlHistory (ui w))) = Some u).
    { rewrite E, removelast_last. apply last_entry_snoc. }
    rewrite <- E. split; [exact He|].
    assert (Hu : Js.truthy u = true).
    { apply Forall_app in Hh as [Hh _]. apply Forall_app in Hh as [_ Hh].
      now inversion Hh. }
    unfold step. now rewrite (handlePrevPage_accepted w u Hd Hl He Hu).
  - intros Hl Hd. apply negb_false_iff in Hd.
    destruct (nextLink (ui w)) as [link|] eqn:En; [|discriminate].
    exists link. split; [reflexivity|].
    unfold step. now rewrite (handleNextPage_accepted w link En Hd Hl).
Qed.

Lemma buttons_agree_with_handlers_witness :
  step PrevPage page1_world = page1_world
  /\ exists link, nextLink (ui page1_world) = Some link
       /\ inflight (step NextPage page1_world)
          = (inflight page1_world ++ [callOf (ui page1_world) (Some link) false])%list.
Proof.
  destruct (buttons_agree_with_handlers page1_world
              {| totalPages := 3; startIndex := 1; endIndex := 50;
                 hasPrevPage := false; prevDisabled := true;
                 nextDisabled := false |}
              reachable_page1 eq_refl) as (Hp & _ & _ & Hn).
  split; [exact (Hp eq_refl) | exact (Hn eq_refl eq_refl)].
Defined.

(** X21. A draft edit touches the draft only: the calls in flight and the
    state without the draft stay, and every event after it other than
    Apply Filters has the effect it would have had without the edit. *)
Theorem draft_edit_is_inert (e e' : Event) (w : World) :
  is_draft_edit e = true -> e' <> ApplyFilters ->
  inflight (step e w) = inflight w
  /\ committed (ui (step e w)) = committed (ui w)
  /\ inflight (step e' (step e w)) = inflight (step e' w)
  /\ committed (ui (step e' (step e w))) = committed (ui (step e' w)).
Proof.
  intros He Hne.
  destruct e; try discriminate He; (split; [reflexivity|]);
    (split; [reflexivity|]);
    (destruct e' as [text'|c'|c'| |k| | |i srv]; [| | |congruence | | | |]);
    try (split; reflexivity);
    unfold step, handleNextPage, handlePrevPage, settle, with_ui;
    cbn [ui inflight nextLink isLoading currentPage pageUrlHistory
         setSearchTerm setSelectedCategory setSelectedStatus];
    repeat match goal with
           | |- context [if ?c then _ else _] => destruct c
           | |- context [match ?x with _ => _ end] => destruct x
           end;
    unfold fetchPageData_settle;
    repeat match goal with
           | |- context [if ?c then _ else _] => destruct c
           | |- context [match ?x with _ => _ end] => destruct x
           end;
    split; reflexivity.
Qed.

Lemma draft_edit_is_inert_witness :
  inflight (step NextPage (step (SearchChange "flow") page1_world))
  = inflight (step NextPage page1_world).
Proof.
  refine (proj1 (proj2 (proj2
            (draft_edit_is_inert (SearchChange "flow") NextPage page1_world
               eq_refl _)))).
  discriminate.
Defined.

Lemma single_flight_clean_step (e : Event) (w : World) :
  single_flight_clean w ->
  (is_new_query e = true -> inflight w = []) ->
  single_flight_clean (step e w).
Proof.
  intros Hs Hq.
  destruct e as [text|c|c| |k| | |i srv]; simpl; try exact Hs.
  - right. unfold handleApplyFilters, newQueryEffect, fetchPageData_start.
    simpl. rewrite (Hq eq_refl). eexists. repeat split.
  - right. unfold handleSort, newQueryEffect, fetchPageData_start.
    simpl. rewrite (Hq eq_refl). eexists. repeat split.
  - unfold handleNextPage.
    destruct Hs as [[Hi Hl]|(c & Hi & Hl & He)]; rewrite Hl.
    + rewrite orb_false_r.
      destruct (negb (Js.truthy_opt (nextLink (ui w)))); [now left|].
      destruct (nextLink (ui w)); [|now left].
      right. unfold fetchPageData_start. simpl. rewrite Hi.
      eexists. repeat split.
    + rewrite orb_true_r. right. eauto.
  - unfold handlePrevPage.
    destruct Hs as [[Hi Hl]|(c & Hi & Hl & He)]; rewrite Hl.
    + rewrite orb_false_r.
      destruct (currentPage (ui w) <=? 1); [now left|].
      destruct (last_entry (removelast (pageUrlHistory (ui w)))) as [u|];
        [|now left].
      destruct (Js.truthy u); [|now left].
      right. unfold fetchPageData_start. simpl. rewrite Hi.
      eexists. repeat split.
    + rewrite orb_true_r. right. eauto.
  - unfold settle.
    destruct Hs as [[Hi Hl]|(c & Hi & Hl & He)]; rewrite Hi.
    + destruct i; simpl; left; rewrite Hi; auto.
    + destruct i as [|[|i]]; simpl.
      * left. split; reflexivity.
      * right. exists c. rewrite Hi. auto.
      * right. exists c. rewrite Hi. auto.
Qed.

(** X22. While every new query starts with nothing in flight, one call at
    most is in flight and no message of an earlier failure is shown next
    to it; when the call is answered, its records are shown: the table is
    visible, with no message and the loading flag clear. *)
Theorem single_flight_shows_answer (events : list Event) (i : nat)
    (srv : Server) (c : Call) (data : WorkflowsResponse) :
  (forall before e after,
     events = (before ++ e :: after)%list -> is_new_query e = true ->
     inflight (run before mount) = []) ->
  let w := run events mount in
  nth_error (inflight w) i = Some c -> perform srv c = Ok data ->
  inflight w = [c]
  /\ error (ui w) = None
  /\ tableVisible (ui (step (Settle i srv) w)) = true
  /\ workflows (ui (step (Settle i srv) w)) = r_workflows data
  /\ inflight (step (Settle i srv) w) = [].
Proof.
  intros Hd w Hc Hok.
  assert (Hs : single_flight_clean w).
  { subst w. clear Hc.
    induction events as [|e es IH] using rev_ind.
    - right. eexists. repeat split.
    - unfold run. rewrite fold_left_app. cbn [fold_left].
      apply single_flight_clean_step.
      + apply IH. intros before e0 after E Hq.
        apply (Hd before e0 (after ++ [e])%list); [|assumption].
        rewrite E, <- app_assoc. reflexivity.
      + intros Hq. apply (Hd es e []); [reflexivity | assumption]. }
  destruct Hs as [[Hi _]|(c' & Hi & Hl & He)].
  - rewrite Hi in Hc. destruct i; discriminate.
  - rewrite Hi in Hc. destruct i as [|i]; [|destruct i; discriminate].
    injection Hc as ->.
    split; [exact Hi|]. split; [exact He|].
    unfold step, settle. rewrite Hi. cbn [nth_error remove_at ui inflight].
    rewrite Hok. unfold fetchPageData_settle, tableVisible.
    destruct (c_isNewQuery c);
      cbn [isLoading error workflows setIsLoading setPageUrlHistory
           setCurrentPage setNextLink setTotalCount setWorkflows];
      rewrite He; repeat split.
Qed.

Lemma single_flight_shows_answer_witness :
  tableVisible
    (ui (step (Settle 0 (serving [] None 120))
           (run [Settle 0 failing; ApplyFilters] mount))) = true.
Proof.
  refine (proj1 (proj2 (proj2
            (single_flight_shows_answer [Settle 0 failing; ApplyFilters] 0
               (serving [] None 120) (callOf initialState None true)
               {| r_workflows := []; r_nextLink := None; r_totalCount := 120;
                  requestUrl := "https://wecare-ii.crm5.dynamics.com/api/data/v9.2/workflows?%24top=50&%24count=true&%24orderby=modifiedon+desc" |}
               _ eq_refl eq_refl)))).
  intros before e after E Hq.
  destruct before as [|b0 [|b1 [|b2 before]]].
  - injection E as <- _. discriminate Hq.
  - injection E as <- _ _. reflexivity.
  - injection E as _ _ E. destruct after; discriminate E.
  - injection E as _ _ E. destruct before; discriminate E.
Defined.

(** X23. A new query is never held back: with or without a call in
    flight, and with the loading flag set or clear, Apply Filters and a
    click on a header send one more call, without a cursor; page number,
    history, forward cursor, records and total stay until an answer
    comes. *)
Theorem new_query_never_dropped (e : Event) (w : World) :
  is_new_query e = true ->
  inflight (step e w) = (inflight w ++ [callOf (ui (step e w)) None true])%list
  /\ isLoading (ui (step e w)) = true
  /\ error (ui (step e w)) = None
  /\ pageUrlHistory (ui (step e w)) = pageUrlHistory (ui w)
  /\ currentPage (ui (step e w)) = currentPage (ui w)
  /\ nextLink (ui (step e w)) = nextLink (ui w)
  /\ workflows (ui (step e w)) = workflows (ui w)
  /\ totalCount (ui (step e w)) = totalCount (ui w).
Proof.
  destruct e; try discriminate; intros _; repeat split.
Qed.

Lemma new_query_never_dropped_witness :
  List.length (inflight (step ApplyFilters mount)) = 2%nat.
Proof.
  rewrite (proj1 (new_query_never_dropped ApplyFilters mount eq_refl)).
  reflexivity.
Defined.

(** X24. Answers take effect in the order in which they arrive. With a
    page call and, started after it, a new query in flight, when the new
    query is answered first and the page call after it, the records, the
    total and the forward cursor are those of the page call, while the
    page number is 1 and the history is the locator of the new query: the
    earlier call is not cancelled, and its late answer replaces what the
    new query had shown. *)
Theorem late_answer_overwrites (w : World) (older newer : Call)
    (srv srv' : Server) (data data' : WorkflowsResponse) :
  inflight w = [older; newer] ->
  c_isNewQuery older = false -> c_isNewQuery newer = true ->
  perform srv newer = Ok data -> perform srv' older = Ok data' ->
  let w' := run [Settle 1 srv; Settle 0 srv'] w in
  workflows (ui w') = r_workflows data'
  /\ totalCount (ui w') = r_totalCount data'
  /\ nextLink (ui w') = r_nextLink data'
  /\ currentPage (ui w') = 1
  /\ pageUrlHistory (ui w') = [requestUrl data]
  /\ inflight w' = [].
Proof.
  intros Hi Ho Hn Hok Hok'. cbv zeta. unfold run. cbn [fold_left].
  unfold step, settle. rewrite Hi. cbn [nth_error remove_at ui inflight].
  rewrite Hn, Ho, Hok, Hok'. repeat split.
Qed.

Lemma late_answer_overwrites_witness :
  currentPage
    (ui (run [Settle 1 (serving [] None 7); Settle 0 (serving [] (Some "C") 120)]
           (run [NextPage; ApplyFilters] page1_world))) = 1
  /\ nextLink
       (ui (run [Settle 1 (serving [] None 7); Settle 0 (serving [] (Some "C") 120)]
              (run [NextPage; ApplyFilters] page1_world)))
     = r_nextLink {| r_workflows := []; r_nextLink := Some "C";
                     r_totalCount := 120; requestUrl := "B" |}.
Proof.
  destruct (late_answer_overwrites (run [NextPage; ApplyFilters] page1_world)
              (callOf (ui page1_world) (Some "B") false)
              (callOf (ui page1_world) None true)
              (serving [] None 7) (serving [] (Some "C") 120)
              {| r_workflows := []; r_nextLink := None; r_totalCount := 7;
                 requestUrl := "https://wecare-ii.crm5.dynamics.com/api/data/v9.2/workflows?%24top=50&%24count=true&%24orderby=modifiedon+desc" |}
              {| r_workflows := []; r_nextLink := Some "C"; r_totalCount := 120;
                 requestUrl := "B" |}
              ltac:(vm_compute; reflexivity) ltac:(vm_compute; reflexivity)
              ltac:(vm_compute; reflexivity) ltac:(vm_compute; reflexivity)
              ltac:(vm_compute; reflexivity))
    as (_ & _ & Hn & Hp & _).
  split; [exact Hp | exact Hn].
Defined.
